(** * The Airtable data source of llana: query translation and execution

    A shallow embedding of [src/datasources/airtable.datasource.ts].

    JavaScript values are a small tagged union, objects are association
    lists, asynchronous methods are computations in a monad that threads
    the list of requests handed to [createRequest] and can throw.  The
    remote service, the configuration, the pagination helper, the clock and
    the [Date] built-in are fields of an environment record, the analogue
    of the injected [this].  The loops that the source does not bound
    ([findTotalRecords], the skipping loop of [findMany]) await a request
    in every round: they take fuel, and running out of fuel is the outcome
    [Diverge].  The mutual recursion of [findOne] and [findMany] runs on
    the call stack, before anything is awaited: its depth is bounded, and
    at depth 0 the call throws the engine's [RangeError]. *)

From Stdlib Require Import String Ascii ZArith List Bool Lia DecimalString.
Import ListNotations.
Local Open Scope string_scope.
Local Open Scope Z_scope.
Local Set Warnings "-register-all".

(** ** JavaScript values *)

(** Numbers are restricted to integers, which is what limits, offsets,
    page sizes and record counts are, and among them to the safe integers
    (magnitude below 2^53): these are the integers a JavaScript number
    holds exactly, and the ones [String(n)] prints as their decimal
    numeral.  Beyond, [String(n)] rounds and, from 1e21 on, takes the
    exponent form; [to_string] is not meant for those. *)
Inductive value : Type :=
| VUndefined
| VNull
| VBool (b : bool)
| VNum (n : Z)
| VStr (s : string)
| VArr (l : list value).

Definition value_eqb_atom (a b : value) : bool :=
  match a, b with
  | VUndefined, VUndefined => true
  | VNull, VNull => true
  | VBool x, VBool y => Bool.eqb x y
  | VNum x, VNum y => Z.eqb x y
  | VStr x, VStr y => String.eqb x y
  | _, _ => false
  end.

(** [!v] is [negb (truthy v)]. *)
Definition truthy (v : value) : bool :=
  match v with
  | VUndefined | VNull => false
  | VBool b => b
  | VNum n => negb (n =? 0)
  | VStr s => negb (String.eqb s EmptyString)
  | VArr _ => true
  end.

Definition string_of_Z (n : Z) : string := NilZero.string_of_int (Z.to_int n).

(** [String(v)], the conversion a template literal applies; a number is
    a safe integer, printed as its decimal numeral. *)
Fixpoint to_string (v : value) : string :=
  match v with
  | VUndefined => "undefined"
  | VNull => "null"
  | VBool true => "true"
  | VBool false => "false"
  | VNum n => string_of_Z n
  | VStr s => s
  | VArr l =>
      let elt x := match x with VUndefined | VNull => EmptyString | _ => to_string x end in
      (fix join (l : list value) : string :=
         match l with
         | [] => EmptyString
         | [x] => elt x
         | x :: r => elt x ++ "," ++ join r
         end) l
  end.

Definition isArray (v : value) : bool :=
  match v with VArr _ => true | _ => false end.

(** The double quote character, for the formula strings. *)
Definition dquote : string := String (ascii_of_nat 34) EmptyString.

(** [s.slice(0, -1)] *)
Definition slice_0_m1 (s : string) : string :=
  substring 0 (String.length s - 1) s.

(** [s.slice(0, 19)] *)
Definition slice_0_19 (s : string) : string := substring 0 19 s.

(** [s.replace(a, b)] for one-character [a] and [b]: the first occurrence. *)
Fixpoint replace_char (a b : ascii) (s : string) : string :=
  match s with
  | EmptyString => EmptyString
  | String c r => if Ascii.eqb c a then String b r else String c (replace_char a b r)
  end.

Definition lower_ascii (c : ascii) : ascii :=
  let n := nat_of_ascii c in
  if (Nat.leb 65 n && Nat.leb n 90)%bool then ascii_of_nat (n + 32) else c.

Fixpoint toLowerCase (s : string) : string :=
  match s with
  | EmptyString => EmptyString
  | String c r => String (lower_ascii c) (toLowerCase r)
  end.

(** ** Objects: string-keyed records in insertion order *)

Definition object := list (string * value).

Fixpoint obj_get (k : string) (o : object) : value :=
  match o with
  | [] => VUndefined
  | (k', v) :: r => if String.eqb k' k then v else obj_get k r
  end.

(** [o[k] = v]: an existing key keeps its place. *)
Fixpoint obj_set (k : string) (v : value) (o : object) : object :=
  match o with
  | [] => [(k, v)]
  | (k', v') :: r => if String.eqb k' k then (k', v) :: r else (k', v') :: obj_set k v r
  end.

(** [delete o[k]] *)
Fixpoint obj_delete (k : string) (o : object) : object :=
  match o with
  | [] => []
  | (k', v') :: r => if String.eqb k' k then r else (k', v') :: obj_delete k r
  end.

(** [{...o, ...extra}] *)
Definition obj_spread (o extra : object) : object :=
  fold_left (fun acc kv => obj_set (fst kv) (snd kv) acc) extra o.

(** ** Errors *)

Record JsError : Type := { err_name : string; err_message : string }.

Definition Error (msg : string) : JsError :=
  {| err_name := "Error"; err_message := msg |}.

(** Reading property [p] of [undefined]; the text is the engine's. *)
Definition TypeError_reading (p : string) : JsError :=
  {| err_name := "TypeError";
     err_message := "Cannot read properties of undefined (reading '" ++ p ++ "')" |}.

Definition RangeError (msg : string) : JsError :=
  {| err_name := "RangeError"; err_message := msg |}.

(** [String(e)] *)
Definition error_toString (e : JsError) : string :=
  err_name e ++ ": " ++ err_message e.

(** [new Error(e)] for a caught [e], as every [catch] block of the class
    rethrows it. *)
Definition new_Error_of (e : JsError) : JsError := Error (error_toString e).

(** What the engine throws at a call for which the stack has no room; the
    text is the engine's. *)
Definition stack_overflow : JsError :=
  RangeError "Maximum call stack size exceeded".

(** An error caught and rethrown by [n] nested [catch] blocks. *)
Fixpoint wrapped (n : nat) (e : JsError) : JsError :=
  match n with
  | O => e
  | S k => new_Error_of (wrapped k e)
  end.

(** ** The data source types ([types/datasource.types]) *)

Module DataSourceColumnType.

(** Modelled from the spec: the enum [DataSourceColumnType], declared in
    [types/datasource.types], with the canonical types the specification
    lists for a column. *)
Inductive t : Type := STRING | NUMBER | BOOLEAN | DATE | ENUM | JSON | UNKNOWN.

End DataSourceColumnType.

Module WhereOperator.

(** Modelled from the spec: the enum [WhereOperator], declared in
    [types/datasource.types], with the operators the specification lists
    for a predicate. *)
Inductive t : Type :=
| equals | not_equals | gt | gte | lt | lte | like | not_like | search
| in_ | not_in | null | not_null.

End WhereOperator.

(** ** Airtable metadata ([types/datasources/airtable.types]) *)

Module AirtableColumnType.

(** Modelled from the spec: the enum [AirtableColumnType], declared in
    [types/datasources/airtable.types]; its members are the native types
    [fieldMapper] names, and [OTHER] is any type it does not. *)
Inductive t : Type :=
| EMAIL | URL | BARCODE | MULTILINE_TEXT | RICH_TEXT | DURATION | PHONE_NUMBER
| SINGLE_LINE_TEXT
| AUTO_NUMBER | NUMBER | COUNT | PERCENT | CURRENCY | RATING
| CHECKBOX
| DATE | DATE_TIME | CREATED_TIME | LAST_MODIFIED_TIME
| MULTIPLE_ATTACHMENTS | MULTIPLE_COLLABORATORS | MULTIPLE_RECORD_LINKS
| MULTIPLE_LOOKUP_VALUES | MULTIPLE_SELECTS | SINGLE_COLLABORATOR | FORMULA
| ROLLUP | CREATED_BY | LAST_MODIFIED_BY | BUTTON | EXTERNAL_SYNC_SOURCE | AI_TEXT
| SINGLE_SELECT
| OTHER (native : string).

(** [type === AirtableColumnType.MULTIPLE_RECORD_LINKS] *)
Definition is_links (a : t) : bool :=
  match a with MULTIPLE_RECORD_LINKS => true | _ => false end.

End AirtableColumnType.

Record FieldOptions : Type := { linkedTableId : string }.

Record AirtableField : Type := {
  fld_name : string;
  fld_type : AirtableColumnType.t;
  fld_options : option FieldOptions
}.

Record AirtableTable : Type := {
  tbl_id : string;
  tbl_name : string;
  tbl_fields : list AirtableField
}.

(** The [extra] of a column as [getSchema] fills it: the note of the
    synthesized id column, or the native field. *)
Inductive ColumnExtra : Type :=
| ExtraNote (note : string)
| ExtraField (f : AirtableField).

(** Modelled from the spec: [DataSourceSchemaColumn], declared in
    [types/datasource.types], with the properties the specification gives
    a column. *)
Record DataSourceSchemaColumn : Type := {
  field : string;
  type : DataSourceColumnType.t;
  nullable : bool;
  required : bool;
  primary_key : bool;
  unique_key : bool;
  foreign_key : bool;
  default : value;
  extra : ColumnExtra
}.

(** Modelled from the spec: [DataSourceSchemaRelation], declared in
    [types/datasource.types]: [org_table.org_column] references
    [rel_table.rel_column]. *)
Record DataSourceSchemaRelation : Type := {
  rel_table : string;
  rel_column : string;
  org_table : string;
  org_column : string
}.

(** Modelled from the spec: [DataSourceSchema], declared in
    [types/datasource.types].  [schema_primary_key] is [None] when the
    property is [undefined]. *)
Record DataSourceSchema : Type := {
  table : string;
  columns : list DataSourceSchemaColumn;
  schema_primary_key : option string;
  relations : list DataSourceSchemaRelation
}.

(** Modelled from the spec: [DataSourceWhere], declared in
    [types/datasource.types]. *)
Record DataSourceWhere : Type := {
  column : string;
  operator : WhereOperator.t;
  where_value : value
}.

Definition set_where_value (w : DataSourceWhere) (v : value) : DataSourceWhere :=
  {| column := column w; operator := operator w; where_value := v |}.

(** [w.column === schema.primary_key] *)
Definition is_primary_key (schema : DataSourceSchema) (c : string) : bool :=
  match schema_primary_key schema with
  | Some pk => String.eqb c pk
  | None => false
  end.

(** A property key made of [schema.primary_key]. *)
Definition primary_key_name (schema : DataSourceSchema) : string :=
  match schema_primary_key schema with
  | Some pk => pk
  | None => "undefined"
  end.

(** ** Outcomes *)

(** A call returns, throws (an asynchronous method rejects), or never
    settles. *)
Inductive Outcome (A : Type) : Type :=
| Ok (a : A)
| Throw (e : JsError)
| Diverge.
Arguments Ok {A} a.
Arguments Throw {A} e.
Arguments Diverge {A}.

(** ** The filter translator *)

(** The text one predicate adds to the formula, separator included;
    [None] is the [default] branch of the switch. *)
Definition render (w : DataSourceWhere) : option string :=
  let c := column w in
  let v := to_string (where_value w) in
  match operator w with
  | WhereOperator.equals => Some ("{" ++ c ++ "}=" ++ dquote ++ v ++ dquote ++ ",")
  | WhereOperator.not_equals => Some ("{" ++ c ++ "}!=" ++ dquote ++ v ++ dquote ++ ",")
  | WhereOperator.gt => Some ("{" ++ c ++ "}>" ++ dquote ++ v ++ dquote ++ ",")
  | WhereOperator.gte => Some ("{" ++ c ++ "}>=" ++ dquote ++ v ++ dquote ++ ",")
  | WhereOperator.lt => Some ("{" ++ c ++ "}<" ++ dquote ++ v ++ dquote ++ ",")
  | WhereOperator.lte => Some ("{" ++ c ++ "}<=" ++ dquote ++ v ++ dquote ++ ",")
  | WhereOperator.like | WhereOperator.search =>
      Some ("SEARCH(" ++ dquote ++ v ++ dquote ++ ",{" ++ c ++ "}),")
  | WhereOperator.not_like =>
      Some ("NOT(SEARCH(" ++ dquote ++ v ++ dquote ++ ",{" ++ c ++ "})),")
  | _ => None
  end.

Definition find_column (schema : DataSourceSchema) (c : string)
  : option DataSourceSchemaColumn :=
  find (fun col => String.eqb (field col) c) (columns schema).

(** The checkbox rewrite: [w.value = ''] when the column is BOOLEAN and
    [w.value === false]. *)
Definition checkbox_rewrite (col : DataSourceSchemaColumn) (w : DataSourceWhere)
  : DataSourceWhere :=
  match type col, where_value w with
  | DataSourceColumnType.BOOLEAN, VBool false => set_where_value w (VStr EmptyString)
  | _, _ => w
  end.

(** The [for (const w of where)] loop.  The predicates are objects shared
    with the caller, so the loop also yields the list as it leaves it. *)
Fixpoint whereToFilter_loop (schema : DataSourceSchema) (ws : list DataSourceWhere)
  (filter : string) : Outcome string * list DataSourceWhere :=
  match ws with
  | [] => (Ok filter, [])
  | w :: rest =>
      match find_column schema (column w) with
      | None => (Throw (TypeError_reading "type"), w :: rest)
      | Some col =>
          let w' := checkbox_rewrite col w in
          let filter' :=
            match render w' with
            | Some piece => filter ++ piece
            | None => filter
            end in
          let (r, rest') := whereToFilter_loop schema rest filter' in
          (r, w' :: rest')
      end
  end.

(** [whereToFilter(where, schema)]: the result and the predicate list
    afterwards.  The logger is not modelled. *)
Definition whereToFilter (where_ : list DataSourceWhere) (schema : DataSourceSchema)
  : Outcome string * list DataSourceWhere :=
  match where_ with
  | [] => (Ok EmptyString, where_)
  | _ =>
      let (r, where') := whereToFilter_loop schema where_ EmptyString in
      match r with
      | Ok filter =>
          let filter := slice_0_m1 filter in
          if (1 <? Z.of_nat (List.length where_)) then
            (Ok (if String.eqb filter EmptyString then EmptyString
                 else "AND(" ++ filter ++ ")"), where')
          else (Ok filter, where')
      | Throw e => (Throw e, where')
      | Diverge => (Diverge, where')
      end
  end.

(** ** Requests, replies and the effect monad *)

Inductive Method : Type := GET | POST | PATCH | DELETE.

Record SortSpec : Type := { sort_field : string; direction : string }.

(** The body of a [listRecords] request.  A key whose value is [null] is
    deleted before sending and one whose value is [undefined] is dropped by
    the JSON encoder: both are [None] here. *)
Record ListRecords : Type := {
  pageSize : Z;
  fields : list string;
  filterByFormula : string;
  sort : option (list SortSpec);
  maxRecords : option Z;
  offset : option value
}.

Inductive Body : Type :=
| NoData
| ListRecordsData (b : ListRecords)
| CreateRecordsData (record_fields : object)
| UpdateFieldsData (record_fields : object).

(** What [createRequest] is called with; [endpoint] still has the
    [BaseId] placeholder. *)
Record Request : Type := {
  endpoint : string;
  method : Method;
  data : Body
}.

Record AirtableRecord : Type := { rec_id : value; rec_fields : object }.

(** [response.data]; an absent property is [VUndefined], [None] or [[]]. *)
Record Response : Type := {
  res_id : value;
  res_fields : object;
  res_records : option (list AirtableRecord);
  res_offset : value;
  res_tables : option (list AirtableTable)
}.

(** What the HTTP client does with a request: an answer, an error that
    carries [e.response], or one that does not. *)
Inductive Reply : Type :=
| Replied (r : Response)
| HttpError
| NetworkError.

Definition Trace := list Request.

Definition M (A : Type) : Type := Trace -> Outcome A * Trace.

Definition ret {A} (a : A) : M A := fun t => (Ok a, t).

Definition bind {A B} (m : M A) (k : A -> M B) : M B :=
  fun t =>
    match m t with
    | (Ok a, t') => k a t'
    | (Throw e, t') => (Throw e, t')
    | (Diverge, t') => (Diverge, t')
    end.

Definition throw {A} (e : JsError) : M A := fun t => (Throw e, t).

Definition diverge {A} : M A := fun t => (Diverge, t).

Definition lift {A} (o : Outcome A) : M A := fun t => (o, t).

(** [try { m } catch (e) { ...; throw new Error(e) }] *)
Definition rethrowing {A} (m : M A) : M A :=
  fun t =>
    match m t with
    | (Throw e, t') => (Throw (new_Error_of e), t')
    | r => r
    end.

Declare Scope js_scope.
Delimit Scope js_scope with js.
Notation "x <- m ;; k" := (bind m (fun x => k))
  (at level 100, m at next level, right associativity) : js_scope.
Notation "' p <- m ;; k" := (bind m (fun x => match x with p => k end))
  (at level 100, p pattern, m at next level, right associativity) : js_scope.
Local Open Scope js_scope.

Definition bindO {A B} (o : Outcome A) (k : A -> Outcome B) : Outcome B :=
  match o with
  | Ok a => k a
  | Throw e => Throw e
  | Diverge => Diverge
  end.

(** ** The pagination helper and the environment *)

(** [helpers/Pagination]: the page-token functions the class calls.  What
    they compute is left open. *)
Record Pagination : Type := {
  current : option Z -> option Z -> value;
  previous : option Z -> option Z -> value;
  next : option Z -> option Z -> Z -> value;
  first : option Z -> value;
  last : option Z -> Z -> value
}.

(** Everything the class reaches through [this] or the runtime. *)
Record Env : Type := {
  (** the HTTP client and the service behind it, which may answer by the
      requests made so far *)
  axios : Trace -> Request -> Reply;
  (** [configService.get('database.defaults.limit')] *)
  database_defaults_limit : option Z;
  pagination : Pagination;
  (** [new Date().toISOString()] *)
  now_toISOString : string;
  (** [new Date(v).toISOString()]; [None] is an invalid date *)
  date_toISOString : value -> option string
}.

Record PageTokens : Type := {
  page_current : value;
  page_prev : value;
  page_next : value;
  page_first : value;
  page_last : value
}.

Record FindManyResponseObject : Type := {
  fm_limit : option Z;
  fm_offset : option Z;
  fm_total : Z;
  fm_pagination_total : Z;
  fm_page : PageTokens;
  fm_data : list (option object)
}.

Record DeleteResponseObject : Type := { deleted : Z }.

Record SortOption : Type := { sort_column : string; sort_operator : string }.

Record DataSourceFindOneOptions : Type := {
  fo_schema : DataSourceSchema;
  fo_where : list DataSourceWhere;
  fo_fields : option (list string)
}.

Record DataSourceFindManyOptions : Type := {
  opt_schema : DataSourceSchema;
  opt_where : list DataSourceWhere;
  opt_fields : option (list string);
  opt_limit : option Z;
  opt_offset : option Z;
  opt_sort : option (list SortOption)
}.

Record DataSourceCreateOneOptions : Type := {
  co_schema : DataSourceSchema;
  co_data : object
}.

Record DataSourceUpdateOneOptions : Type := {
  uo_id : string;
  uo_schema : DataSourceSchema;
  uo_data : object
}.

Record DataSourceDeleteOneOptions : Type := {
  do_id : string;
  do_schema : DataSourceSchema;
  softDelete : option string
}.

(** [v ?? null], then the removal of [null]. *)
Definition prune (v : value) : option value :=
  match v with
  | VUndefined | VNull => None
  | _ => Some v
  end.

(** [!n] for an optional number. *)
Definition falsy_number (n : option Z) : bool :=
  match n with
  | None => true
  | Some z => z =? 0
  end.

(** [options.fields?.length > 0 ? options.fields : columns without 'id'] *)
Definition fields_or_columns (fs : option (list string)) (schema : DataSourceSchema)
  : list string :=
  match fs with
  | Some (f :: r) => f :: r
  | _ => filter (fun f => negb (String.eqb f "id")) (map field (columns schema))
  end.

(** The [sort] array of a request, from [options.sort]. *)
Definition sort_specs (o : option (list SortOption)) : list SortSpec :=
  match o with
  | Some l => map (fun s => {| sort_field := sort_column s;
                               direction := toLowerCase (sort_operator s) |}) l
  | None => []
  end.

(** [{ id: i, ...fs }] *)
Definition flat_record (i : value) (fs : object) : object :=
  obj_spread [("id", i)] fs.

(** ** The schema resolver *)

(** [fieldMapper] *)
Definition fieldMapper (t : AirtableColumnType.t) : DataSourceColumnType.t :=
  match t with
  | AirtableColumnType.EMAIL | AirtableColumnType.URL | AirtableColumnType.BARCODE
  | AirtableColumnType.MULTILINE_TEXT | AirtableColumnType.RICH_TEXT
  | AirtableColumnType.DURATION | AirtableColumnType.PHONE_NUMBER
  | AirtableColumnType.SINGLE_LINE_TEXT => DataSourceColumnType.STRING
  | AirtableColumnType.AUTO_NUMBER | AirtableColumnType.NUMBER
  | AirtableColumnType.COUNT | AirtableColumnType.PERCENT
  | AirtableColumnType.CURRENCY | AirtableColumnType.RATING => DataSourceColumnType.NUMBER
  | AirtableColumnType.CHECKBOX => DataSourceColumnType.BOOLEAN
  | AirtableColumnType.DATE | AirtableColumnType.DATE_TIME
  | AirtableColumnType.CREATED_TIME
  | AirtableColumnType.LAST_MODIFIED_TIME => DataSourceColumnType.DATE
  | AirtableColumnType.MULTIPLE_ATTACHMENTS | AirtableColumnType.MULTIPLE_COLLABORATORS
  | AirtableColumnType.MULTIPLE_RECORD_LINKS | AirtableColumnType.MULTIPLE_LOOKUP_VALUES
  | AirtableColumnType.MULTIPLE_SELECTS | AirtableColumnType.SINGLE_COLLABORATOR
  | AirtableColumnType.FORMULA | AirtableColumnType.ROLLUP
  | AirtableColumnType.CREATED_BY | AirtableColumnType.LAST_MODIFIED_BY
  | AirtableColumnType.BUTTON | AirtableColumnType.EXTERNAL_SYNC_SOURCE
  | AirtableColumnType.AI_TEXT => DataSourceColumnType.JSON
  | AirtableColumnType.SINGLE_SELECT => DataSourceColumnType.ENUM
  | AirtableColumnType.OTHER _ => DataSourceColumnType.UNKNOWN
  end.

(** The synthesized primary-key column. *)
Definition id_column : DataSourceSchemaColumn :=
  {| field := "id"; type := DataSourceColumnType.STRING; nullable := false;
     required := false; primary_key := true; unique_key := true;
     foreign_key := false; default := VNull;
     extra := ExtraNote "Airtable Autogenerated ID" |}.

Definition column_of_field (f : AirtableField) : DataSourceSchemaColumn :=
  {| field := fld_name f; type := fieldMapper (fld_type f); nullable := true;
     required := false; primary_key := false; unique_key := false;
     foreign_key := AirtableColumnType.is_links (fld_type f); default := VNull;
     extra := ExtraField f |}.

(** The first loop of [getSchema], over the fields of the target table:
    pushes a column per field and a forward relation per link field. *)
Fixpoint getSchema_fields (tables : list AirtableTable) (target : string)
  (fs : list AirtableField)
  (cols : list DataSourceSchemaColumn) (rels : list DataSourceSchemaRelation)
  : Outcome (list DataSourceSchemaColumn * list DataSourceSchemaRelation) :=
  match fs with
  | [] => Ok (cols, rels)
  | f :: rest =>
      bindO
        (if AirtableColumnType.is_links (fld_type f) then
           match fld_options f with
           | None => Throw (TypeError_reading "linkedTableId")
           | Some o =>
               match find (fun t => String.eqb (tbl_id t) (linkedTableId o)) tables with
               | None => Throw (TypeError_reading "name")
               | Some linkedTable =>
                   Ok (rels ++ [{| rel_table := tbl_name linkedTable; rel_column := "id";
                                   org_table := target; org_column := fld_name f |}])%list
               end
           end
         else Ok rels)
        (fun rels' => getSchema_fields tables target rest (cols ++ [column_of_field f])%list rels')
  end.

(** The inner loop of the second pass.  Inside it [table] is the table the
    outer loop is at, so the link is compared with that table's own id. *)
Fixpoint getSchema_reverse_fields (target : string) (t : AirtableTable)
  (fs : list AirtableField) (rels : list DataSourceSchemaRelation)
  : Outcome (list DataSourceSchemaRelation) :=
  match fs with
  | [] => Ok rels
  | f :: rest =>
      if AirtableColumnType.is_links (fld_type f) then
        match fld_options f with
        | None => Throw (TypeError_reading "linkedTableId")
        | Some o =>
            if String.eqb (linkedTableId o) (tbl_id t) then
              getSchema_reverse_fields target t rest
                (rels ++ [{| rel_table := target; rel_column := fld_name f;
                             org_table := tbl_name t; org_column := "id" |}])%list
            else getSchema_reverse_fields target t rest rels
        end
      else getSchema_reverse_fields target t rest rels
  end.

(** The second pass, [for (const table of response.tables)]. *)
Fixpoint getSchema_reverse (target : string) (ts : list AirtableTable)
  (rels : list DataSourceSchemaRelation) : Outcome (list DataSourceSchemaRelation) :=
  match ts with
  | [] => Ok rels
  | t :: rest =>
      bindO (getSchema_reverse_fields target t (tbl_fields t) rels)
            (fun rels' => getSchema_reverse target rest rels')
  end.

(** The body of [getSchema] once the catalogue is fetched. *)
Definition getSchema_of (tables : list AirtableTable) (target : string)
  : Outcome DataSourceSchema :=
  match find (fun t => String.eqb (tbl_name t) target) tables with
  | None => Throw (Error "Table not found")
  | Some t =>
      bindO (getSchema_fields tables target (tbl_fields t) [id_column] [])
        (fun cr =>
           bindO (getSchema_reverse target tables (snd cr))
             (fun rels =>
                Ok {| table := target;
                      columns := fst cr;
                      schema_primary_key :=
                        option_map field (find primary_key (fst cr));
                      relations := rels |}))
  end.

Section Airtable.

Variable env : Env.

(** [createRequest]: sends the request; an HTTP error is logged and the
    method returns [undefined]; an error without a response makes the
    catch block itself throw. *)
Definition createRequest (rq : Request) : M (option Response) :=
  fun t =>
    match axios env t rq with
    | Replied r => (Ok (Some r), (t ++ [rq])%list)
    | HttpError => (Ok None, (t ++ [rq])%list)
    | NetworkError => (Throw (TypeError_reading "data"), (t ++ [rq])%list)
    end.

Definition tables_request : Request :=
  {| endpoint := "/meta/bases/BaseId/tables"; method := GET; data := NoData |}.

(** [getSchema] *)
Definition getSchema (target : string) : M DataSourceSchema :=
  rethrowing
    (response <- createRequest tables_request ;;
     match response with
     | None => throw (TypeError_reading "tables")
     | Some r =>
         match res_tables r with
         | None => throw (TypeError_reading "find")
         | Some tables => lift (getSchema_of tables target)
         end
     end).

(** ** The record mapper *)

(** [formatField] *)
Definition formatField (ty : DataSourceColumnType.t) (v : value) : Outcome value :=
  match v with
  | VNull => Ok VNull
  | _ =>
      match ty with
      | DataSourceColumnType.DATE =>
          match date_toISOString env v with
          | Some s => Ok (VStr s)
          | None => Throw (RangeError "Invalid time value")
          end
      | _ => Ok v
      end
  end.

(** The second loop of [formatOutput]. *)
Fixpoint formatOutput_fields (schema : DataSourceSchema) (o : object) : Outcome object :=
  match o with
  | [] => Ok []
  | (k, v) :: rest =>
      bindO
        (match find_column schema k with
         | None => Ok v
         | Some col => formatField (type col) v
         end)
        (fun v' => bindO (formatOutput_fields schema rest) (fun rest' => Ok ((k, v') :: rest')))
  end.

(** [formatOutput] *)
Definition formatOutput (options : DataSourceFindOneOptions) (o : object) : Outcome object :=
  let kept :=
    match fo_fields options with
    | Some (f :: r) =>
        filter (fun kv => String.eqb (fst kv) "id"
                          || existsb (String.eqb (fst kv)) (f :: r)) o
    | _ => o
    end in
  formatOutput_fields (fo_schema options) kept.

(** ** Counting and paging *)

Definition listRecords_request (tbl : string) (b : ListRecords) : Request :=
  {| endpoint := "/BaseId/" ++ tbl ++ "/listRecords"; method := POST;
     data := ListRecordsData b |}.

(** The [while (!finished)] loop of [findTotalRecords].  On a full page
    the source runs [offset += 100], overwrites [offset] with the page's
    cursor on the next line, and then assigns [total = +result.records.length]. *)
Fixpoint findTotalRecords_loop (fuel : nat) (tbl filter : string) (cursor : value)
  (total : Z) : M Z :=
  match fuel with
  | O => diverge
  | S fuel' =>
      result <- createRequest
        (listRecords_request tbl
           {| pageSize := 100; fields := []; filterByFormula := filter; sort := None;
              maxRecords := None; offset := prune cursor |}) ;;
      match result with
      | None => throw (TypeError_reading "records")
      | Some r =>
          match res_records r with
          | None | Some [] => ret total
          | Some recs =>
              let n := Z.of_nat (List.length recs) in
              if n <? 100 then ret (total + n)
              else findTotalRecords_loop fuel' tbl filter (res_offset r) n
          end
      end
  end.

(** [findTotalRecords] *)
Definition findTotalRecords (fuel : nat) (schema : DataSourceSchema)
  (where_ : list DataSourceWhere) : M Z :=
  rethrowing
    (filter <- lift (fst (whereToFilter where_ schema)) ;;
     findTotalRecords_loop fuel (table schema) filter VUndefined 0).

(** The [while (tempOffet < offset)] loop of [findMany].  Its cursor
    [airtableoffset] is local to the block that contains the loop. *)
Fixpoint findMany_skip (fuel : nat) (tbl : string) (fs : list string) (filter : string)
  (srt : list SortSpec) (target tempOffet : Z) (airtableoffset : value) : M unit :=
  if tempOffet <? target then
    match fuel with
    | O => diverge
    | S fuel' =>
        result <- createRequest
          (listRecords_request tbl
             {| pageSize := 100; fields := fs; filterByFormula := filter;
                sort := Some srt; maxRecords := None; offset := prune airtableoffset |}) ;;
        match result with
        | None => throw (TypeError_reading "offset")
        | Some r => findMany_skip fuel' tbl fs filter srt target (tempOffet + 100) (res_offset r)
        end
    end
  else ret tt.

Definition effective_limit (l : option Z) : Z :=
  match l with
  | Some z => if z =? 0 then
                match database_defaults_limit env with Some d => d | None => 20 end
              else z
  | None => match database_defaults_limit env with Some d => d | None => 20 end
  end.

Definition page_tokens (limit offset_ : option Z) (total : Z) : PageTokens :=
  {| page_current := current (pagination env) limit offset_;
     page_prev := previous (pagination env) limit offset_;
     page_next := next (pagination env) limit offset_ total;
     page_first := first (pagination env) limit;
     page_last := last (pagination env) limit total |}.

(** The [try] block of [findMany], after the total is known.  The
    predicates are the objects [findTotalRecords] has passed through
    [whereToFilter] already. *)
Definition findMany_page (fuel : nat) (options : DataSourceFindManyOptions) (total : Z)
  : M FindManyResponseObject :=
  let schema := opt_schema options in
  let srt := sort_specs (opt_sort options) in
  let limit := effective_limit (opt_limit options) in
  let where1 := snd (whereToFilter (opt_where options) schema) in
  filter <- lift (fst (whereToFilter where1 schema)) ;;
  let fs := fields_or_columns (opt_fields options) schema in
  cursor <-
    match opt_offset options with
    | None => ret VUndefined
    | Some off =>
        if off =? 0 then ret VUndefined
        else if 100 <? off then
          (_ <- findMany_skip fuel (table schema) fs filter srt off 0 VNull ;;
           ret (VNum off))
        else
          (result <- createRequest
             (listRecords_request (table schema)
                {| pageSize := off; fields := fs; filterByFormula := filter;
                   sort := Some srt; maxRecords := None; offset := None |}) ;;
           match result with
           | None => throw (TypeError_reading "offset")
           | Some r => ret (res_offset r)
           end)
    end ;;
  let size := if 100 <? limit then 100 else limit in
  result <- createRequest
    (listRecords_request (table schema)
       {| pageSize := size; fields := fs; filterByFormula := filter;
          sort := Some srt; maxRecords := Some size; offset := prune cursor |}) ;;
  match result with
  | None => throw (TypeError_reading "records")
  | Some r =>
      match res_records r with
      | None => throw (TypeError_reading "map")
      | Some recs =>
          let results := map (fun rc => Some (flat_record (rec_id rc) (rec_fields rc))) recs in
          ret {| fm_limit := Some limit;
                 fm_offset := opt_offset options;
                 fm_total := total;
                 fm_pagination_total := Z.of_nat (List.length results);
                 fm_page := page_tokens (Some limit) (opt_offset options) total;
                 fm_data := results |}
      end
  end.

(** ** Single records *)

Definition record_endpoint (tbl : string) (i : string) : string :=
  "/BaseId/" ++ tbl ++ "/" ++ i.

(** [findOne], given the [findMany] it delegates to when no usable
    primary-key value is among the predicates. *)
Definition findOne_with
  (findMany_ : DataSourceFindManyOptions -> M FindManyResponseObject)
  (options : DataSourceFindOneOptions) : M (option object) :=
  rethrowing
    (let schema := fo_schema options in
     let fs := fields_or_columns (fo_fields options) schema in
     let id :=
       match find (fun w => is_primary_key schema (column w)) (fo_where options) with
       | Some w => where_value w
       | None => VUndefined
       end in
     if negb (truthy id) then
       results <- findMany_ {| opt_schema := schema; opt_where := fo_where options;
                               opt_fields := Some fs; opt_limit := Some 1;
                               opt_offset := Some 0; opt_sort := None |} ;;
       ret (match fm_data results with
            | first_ :: _ => first_
            | [] => None
            end)
     else
       result <- createRequest
         {| endpoint := record_endpoint (table schema) (to_string id);
            method := GET; data := NoData |} ;;
       match result with
       | None => throw (TypeError_reading "id")
       | Some r =>
           if negb (truthy (res_id r)) then throw (Error "Record not found")
           else
             out <- lift (formatOutput options (flat_record (res_id r) (res_fields r))) ;;
             ret (Some out)
       end).

(** [options.where.length === 1 && options.where[0].column === options.schema.primary_key] *)
Definition single_primary_key_predicate (schema : DataSourceSchema)
  (where_ : list DataSourceWhere) : bool :=
  match where_ with
  | [w] => is_primary_key schema (column w)
  | _ => false
  end.

(** [findMany].  On a single primary-key predicate it calls [findOne],
    which calls it back when the value is falsy, each call made before
    anything is awaited: the calls nest on the call stack, and [fuel]
    bounds their depth.  With no depth left the call throws the engine's
    [stack_overflow], which every [findOne] on the way out catches and
    rethrows wrapped.  The loops of the list path await a request in every
    round and take what is left of [fuel] for their rounds. *)
Fixpoint findMany (fuel : nat) (options : DataSourceFindManyOptions)
  : M FindManyResponseObject :=
  match fuel with
  | O => throw stack_overflow
  | S fuel' =>
      let schema := opt_schema options in
      if single_primary_key_predicate schema (opt_where options) then
        r <- findOne_with (findMany fuel')
               {| fo_schema := schema; fo_where := opt_where options;
                  fo_fields := opt_fields options |} ;;
        ret {| fm_limit := opt_limit options;
               fm_offset := opt_offset options;
               fm_total := 1;
               fm_pagination_total := 1;
               fm_page := page_tokens (opt_limit options) (opt_offset options) 1;
               fm_data := [r] |}
      else
        total <- findTotalRecords fuel' schema (opt_where options) ;;
        rethrowing (findMany_page fuel' options total)
  end.

(** [findOne] *)
Definition findOne (fuel : nat) (options : DataSourceFindOneOptions) : M (option object) :=
  findOne_with (findMany fuel) options.

(** ** Relation validation and mutations *)

(** [for (const id of options.data[col.field])], the same in [createOne]
    and [updateOne]: the linked schema is resolved and the linked record
    fetched by primary key, one id at a time. *)
Fixpoint check_linked_ids (fuel : nat) (linkedTable : option DataSourceSchemaRelation)
  (ids : list value) : M unit :=
  match ids with
  | [] => ret tt
  | id :: rest =>
      match linkedTable with
      | None => throw (TypeError_reading "table")
      | Some l =>
          linkedSchema <- getSchema (rel_table l) ;;
          linkedRecord <- findOne fuel
            {| fo_schema := linkedSchema;
               fo_where := [{| column := "id"; operator := WhereOperator.equals;
                               where_value := id |}];
               fo_fields := None |} ;;
          match linkedRecord with
          | None => throw (Error "Linked record not found")
          | Some _ => check_linked_ids fuel linkedTable rest
          end
      end
  end.

(** [for (const col of options.schema.columns)], the same in [createOne]
    and [updateOne]; yields [options.data] with scalars of link columns
    wrapped in arrays. *)
Fixpoint check_relations (fuel : nat) (schema : DataSourceSchema)
  (cols : list DataSourceSchemaColumn) (d : object) : M object :=
  match cols with
  | [] => ret d
  | col :: rest =>
      let v := obj_get (field col) d in
      if foreign_key col && truthy v then
        let d' := if isArray v then d else obj_set (field col) (VArr [v]) d in
        let linkedTable :=
          find (fun r => String.eqb (org_column r) (field col)) (relations schema) in
        let ids := match obj_get (field col) d' with VArr l => l | _ => [] end in
        _ <- check_linked_ids fuel linkedTable ids ;;
        check_relations fuel schema rest d'
      else check_relations fuel schema rest d
  end.

(** [createOne] *)
Definition createOne (fuel : nat) (options : DataSourceCreateOneOptions) : M object :=
  rethrowing
    (let schema := co_schema options in
     d <- check_relations fuel schema (columns schema) (co_data options) ;;
     result <- createRequest
       {| endpoint := "/BaseId/" ++ table schema; method := POST;
          data := CreateRecordsData d |} ;;
     match result with
     | None => throw (TypeError_reading "records")
     | Some r =>
         match res_records r with
         | None | Some [] => throw (Error "Record not created")
         | Some (rc :: _) => ret (flat_record (rec_id rc) (rec_fields rc))
         end
     end).

(** [updateOne] *)
Definition updateOne (fuel : nat) (options : DataSourceUpdateOneOptions) : M object :=
  let schema := uo_schema options in
  let pk := primary_key_name schema in
  let d0 := if truthy (obj_get pk (uo_data options)) then obj_delete pk (uo_data options)
            else uo_data options in
  rethrowing
    (d <- check_relations fuel schema (columns schema) d0 ;;
     result <- createRequest
       {| endpoint := record_endpoint (table schema) (uo_id options); method := PATCH;
          data := UpdateFieldsData d |} ;;
     match result with
     | None => throw (TypeError_reading "id")
     | Some r =>
         if negb (truthy (res_id r)) then throw (Error "Record not updated")
         else ret (flat_record (res_id r) (res_fields r))
     end).

(** [new Date().toISOString().slice(0, 19).replace('T', ' ')] *)
Definition softDelete_timestamp : string :=
  replace_char "T"%char " "%char (slice_0_19 (now_toISOString env)).

(** [if (options.softDelete)] *)
Definition softDelete_column (options : DataSourceDeleteOneOptions) : option string :=
  match softDelete options with
  | Some c => if String.eqb c EmptyString then None else Some c
  | None => None
  end.

(** [deleteOne]; [None] is the case where the method falls off its end and
    returns nothing. *)
Definition deleteOne (fuel : nat) (options : DataSourceDeleteOneOptions)
  : M (option DeleteResponseObject) :=
  rethrowing
    (result_id <-
       match softDelete_column options with
       | Some c =>
           result <- updateOne fuel
             {| uo_id := do_id options; uo_schema := do_schema options;
                uo_data := [(c, VStr softDelete_timestamp)] |} ;;
           ret (obj_get "id" result)
       | None =>
           result <- createRequest
             {| endpoint := record_endpoint (table (do_schema options)) (do_id options);
                method := DELETE; data := NoData |} ;;
           match result with
           | None => throw (TypeError_reading "id")
           | Some r => ret (res_id r)
           end
       end ;;
     if truthy result_id then ret (Some {| deleted := 1 |}) else ret None).

End Airtable.

(** ** The filter translator as the specification words it *)

(** The operator symbols of the comparison predicates. *)
Definition spec_symbol (o : WhereOperator.t) : option string :=
  match o with
  | WhereOperator.equals => Some "="
  | WhereOperator.not_equals => Some "!="
  | WhereOperator.gt => Some ">"
  | WhereOperator.gte => Some ">="
  | WhereOperator.lt => Some "<"
  | WhereOperator.lte => Some "<="
  | _ => None
  end.

(** One predicate as an expression: a comparison, a substring search or a
    negated one; [None] for an operator that is not realised. *)
Definition spec_expression (w : DataSourceWhere) : option string :=
  let v := dquote ++ to_string (where_value w) ++ dquote in
  match spec_symbol (operator w) with
  | Some sym => Some ("{" ++ column w ++ "}" ++ sym ++ v)
  | None =>
      match operator w with
      | WhereOperator.like | WhereOperator.search =>
          Some ("SEARCH(" ++ v ++ ",{" ++ column w ++ "})")
      | WhereOperator.not_like =>
          Some ("NOT(SEARCH(" ++ v ++ ",{" ++ column w ++ "}))")
      | _ => None
      end
  end.

(** A predicate on a BOOLEAN column with value [false] compares against
    the empty string. *)
Definition spec_rewrite (schema : DataSourceSchema) (w : DataSourceWhere) : DataSourceWhere :=
  match find_column schema (column w) with
  | Some col =>
      match type col, where_value w with
      | DataSourceColumnType.BOOLEAN, VBool false => set_where_value w (VStr EmptyString)
      | _, _ => w
      end
  | None => w
  end.

(** The expressions of the predicates that have one, in order. *)
Fixpoint spec_expressions (ws : list DataSourceWhere) : list string :=
  match ws with
  | [] => []
  | w :: rest =>
      match spec_expression w with
      | Some e => e :: spec_expressions rest
      | None => spec_expressions rest
      end
  end.

Definition known_column (schema : DataSourceSchema) (w : DataSourceWhere) : Prop :=
  find_column schema (column w) <> None.

(** ** A simulated base, for running the methods on concrete data *)

(** A base holds a catalogue and the records of each table.  It answers
    the catalogue request, point fetches, and list requests page by page:
    a page starts at the position its cursor names and carries a cursor
    exactly when records remain after it.  Writes are acknowledged with the
    record they would produce, and the base itself stays as it is.
    Formulas are not evaluated; a cursor that the base did not issue, a
    missing record and every other request are HTTP errors. *)
Record Base : Type := {
  base_tables : list AirtableTable;
  base_records : list (string * list AirtableRecord)
}.

Definition cursor_at (k : nat) : value := VStr ("itr" ++ string_of_Z (Z.of_nat k)).

Definition empty_response : Response :=
  {| res_id := VUndefined; res_fields := []; res_records := None;
     res_offset := VUndefined; res_tables := None |}.

(** The position a cursor names among [0 .. n]. *)
Definition cursor_position (n : nat) (c : option value) : option nat :=
  match c with
  | None => Some O
  | Some v => find (fun k => value_eqb_atom (cursor_at k) v) (seq 0 (S n))
  end.

Definition base_page (recs : list AirtableRecord) (b : ListRecords) : Reply :=
  match cursor_position (List.length recs) (offset b) with
  | None => HttpError
  | Some k =>
      let size := Z.to_nat (pageSize b) in
      let rest := skipn k recs in
      Replied {| res_id := VUndefined; res_fields := [];
                 res_records := Some (firstn size rest);
                 res_offset := if Nat.ltb size (List.length rest)
                               then cursor_at (k + size) else VUndefined;
                 res_tables := None |}
  end.

Definition base_record (recs : list AirtableRecord) (e : string) (tbl : string) : Reply :=
  match find (fun rc => String.eqb e (record_endpoint tbl (to_string (rec_id rc)))) recs with
  | Some rc => Replied {| res_id := rec_id rc; res_fields := rec_fields rc;
                          res_records := None; res_offset := VUndefined;
                          res_tables := None |}
  | None => HttpError
  end.

Fixpoint base_dispatch (tbls : list (string * list AirtableRecord)) (rq : Request) : Reply :=
  match tbls with
  | [] => HttpError
  | (tbl, recs) :: rest =>
      match method rq, data rq with
      | POST, ListRecordsData b =>
          if String.eqb (endpoint rq) ("/BaseId/" ++ tbl ++ "/listRecords")
          then base_page recs b else base_dispatch rest rq
      | GET, NoData | DELETE, NoData =>
          match base_record recs (endpoint rq) tbl with
          | Replied r => Replied r
          | _ => base_dispatch rest rq
          end
      | PATCH, UpdateFieldsData fs =>
          match base_record recs (endpoint rq) tbl with
          | Replied r =>
              Replied {| res_id := res_id r; res_fields := obj_spread (res_fields r) fs;
                         res_records := None; res_offset := VUndefined;
                         res_tables := None |}
          | _ => base_dispatch rest rq
          end
      | POST, CreateRecordsData fs =>
          if String.eqb (endpoint rq) ("/BaseId/" ++ tbl)
          then Replied {| res_id := VUndefined; res_fields := [];
                          res_records := Some [{| rec_id := VStr "recNew"; rec_fields := fs |}];
                          res_offset := VUndefined; res_tables := None |}
          else base_dispatch rest rq
      | _, _ => base_dispatch rest rq
      end
  end.

Definition base_axios (b : Base) (t : Trace) (rq : Request) : Reply :=
  match method rq, data rq with
  | GET, NoData =>
      if String.eqb (endpoint rq) "/meta/bases/BaseId/tables"
      then Replied {| res_id := VUndefined; res_fields := []; res_records := None;
                      res_offset := VUndefined; res_tables := Some (base_tables b) |}
      else base_dispatch (base_records b) rq
  | _, _ => base_dispatch (base_records b) rq
  end.

Definition no_pagination : Pagination :=
  {| current := fun _ _ => VNull; previous := fun _ _ => VNull;
     next := fun _ _ _ => VNull; first := fun _ => VNull; last := fun _ _ => VNull |}.

(** A stand-in for [Date] on date-only strings, which are read as
    midnight UTC. *)
Definition date_only_toISOString (v : value) : option string :=
  match v with
  | VStr s => if Nat.eqb (String.length s) 10 then Some (s ++ "T00:00:00.000Z") else None
  | _ => None
  end.

Definition base_env (b : Base) : Env :=
  {| axios := base_axios b;
     database_defaults_limit := Some 20;
     pagination := no_pagination;
     now_toISOString := "2024-05-06T07:08:09.123Z";
     date_toISOString := date_only_toISOString |}.

(** The same environment with the clock at another instant. *)
Definition at_time (now : string) (e : Env) : Env :=
  {| axios := axios e;
     database_defaults_limit := database_defaults_limit e;
     pagination := pagination e;
     now_toISOString := now;
     date_toISOString := date_toISOString e |}.

(** ** A shop base: orders that link to customers *)

Definition text_field (n : string) : AirtableField :=
  {| fld_name := n; fld_type := AirtableColumnType.SINGLE_LINE_TEXT; fld_options := None |}.

Definition link_field (n target_id : string) : AirtableField :=
  {| fld_name := n; fld_type := AirtableColumnType.MULTIPLE_RECORD_LINKS;
     fld_options := Some {| linkedTableId := target_id |} |}.

Definition orders_table : AirtableTable :=
  {| tbl_id := "tblOrders"; tbl_name := "Orders";
     tbl_fields :=
       [ text_field "Name";
         link_field "CustomerId" "tblCustomers";
         {| fld_name := "Paid"; fld_type := AirtableColumnType.CHECKBOX;
            fld_options := None |};
         {| fld_name := "When"; fld_type := AirtableColumnType.DATE;
            fld_options := None |} ] |}.

Definition customers_table : AirtableTable :=
  {| tbl_id := "tblCustomers"; tbl_name := "Customers";
     tbl_fields := [ text_field "Name"; link_field "Orders" "tblOrders" ] |}.

Definition catalogue : list AirtableTable := [orders_table; customers_table].

(** What [getSchema] makes of the catalogue for [Orders]. *)
Definition orders_schema : DataSourceSchema :=
  {| table := "Orders";
     columns := id_column :: map column_of_field (tbl_fields orders_table);
     schema_primary_key := Some "id";
     relations := [ {| rel_table := "Customers"; rel_column := "id";
                       org_table := "Orders"; org_column := "CustomerId" |} ] |}.

Definition order (k : nat) : AirtableRecord :=
  {| rec_id := VStr ("rec" ++ string_of_Z (Z.of_nat k));
     rec_fields := [ ("Name", VStr ("order " ++ string_of_Z (Z.of_nat k)));
                     ("When", VStr "2024-01-15") ] |}.

Definition customer_A : AirtableRecord :=
  {| rec_id := VStr "recA"; rec_fields := [ ("Name", VStr "Ada") ] |}.

(** The shop with [n] orders and one customer. *)
Definition shop (n : nat) : Base :=
  {| base_tables := catalogue;
     base_records := [ ("Orders", map order (seq 0 n)); ("Customers", [customer_A]) ] |}.

Definition where_ (c : string) (o : WhereOperator.t) (v : value) : DataSourceWhere :=
  {| column := c; operator := o; where_value := v |}.

(** ** Vocabulary of the statements *)

(** The text the loop of [whereToFilter] has accumulated for a list of
    expressions: each one followed by the separator. *)
Fixpoint with_separators (es : list string) : string :=
  match es with
  | [] => EmptyString
  | e :: r => e ++ "," ++ with_separators r
  end.

(** The filter for a list of predicates, as the specification words it:
    nothing for no predicate, the bare expression for one, the
    conjunction of the expressions for more. *)
Definition spec_filter (ws : list DataSourceWhere) : string :=
  match ws with
  | [] => EmptyString
  | [w] => match spec_expression w with Some e => e | None => EmptyString end
  | _ => match spec_expressions ws with
         | [] => EmptyString
         | es => "AND(" ++ String.concat "," es ++ ")"
         end
  end.

(** How [whereToFilter] may leave a predicate [w]: as it was, or, when it
    is on a BOOLEAN column and its value was [false], with the empty
    string for value. *)
Definition changed_by_checkbox (schema : DataSourceSchema) (w w' : DataSourceWhere) : Prop :=
  w' = w \/
  (w' = set_where_value w (VStr EmptyString) /\ where_value w = VBool false /\
   exists col, find_column schema (column w) = Some col /\
               type col = DataSourceColumnType.BOOLEAN).

(** A computation only adds requests that satisfy [P] to the trace. *)
Definition sends_only {A} (P : Request -> Prop) (m : M A) : Prop :=
  forall t, exists l, snd (m t) = (t ++ l)%list /\ Forall P l.

Definition not_delete (rq : Request) : Prop := method rq <> DELETE.

(** A request that changes the base. *)
Definition is_write (rq : Request) : bool :=
  match data rq, method rq with
  | CreateRecordsData _, _ | UpdateFieldsData _, _ | _, DELETE => true
  | _, _ => false
  end.

(** The point fetch of the record whose id is [v]. *)
Definition point_fetch (schema : DataSourceSchema) (v : value) : Request :=
  {| endpoint := record_endpoint (table schema) (to_string v); method := GET;
     data := NoData |}.

(** A run of skip requests from trace [t]: each asks for a 100-record
    page with the given fields, filter and sort, the first with cursor
    [cur], each later one with the cursor of the answer before it. *)
Fixpoint skips_chain (env : Env) (tbl : string) (fs : list string) (filter : string)
  (srt : list SortSpec) (t : Trace) (cur : option value) (l : list Request) : Prop :=
  match l with
  | [] => True
  | rq :: rest =>
      rq = listRecords_request tbl
             {| pageSize := 100; fields := fs; filterByFormula := filter;
                sort := Some srt; maxRecords := None; offset := cur |} /\
      exists r, axios env t rq = Replied r /\
                skips_chain env tbl fs filter srt (t ++ [rq])%list (prune (res_offset r)) rest
  end.

(** [ceil(off / 100)], the number of rounds of the skip loop. *)
Definition skip_rounds (off : Z) : nat := Z.to_nat ((off + 99) / 100).

Definition is_digit (c : ascii) : bool :=
  let n := nat_of_ascii c in (Nat.leb 48 n && Nat.leb n 57)%bool.

(** In a pattern [d] stands for a digit and every other character for
    itself. *)
Definition matches_char (p c : ascii) : bool :=
  if Ascii.eqb p "d"%char then is_digit c else Ascii.eqb c p.

(** [s] has the shape of [pattern]. *)
Fixpoint matches (pattern s : string) : bool :=
  match pattern, s with
  | EmptyString, EmptyString => true
  | String p pattern', String c s' => matches_char p c && matches pattern' s'
  | _, _ => false
  end.

(** [Date.prototype.toISOString] for the years 0000 to 9999. *)
Definition iso_pattern : string := "dddd-dd-ddTdd:dd:dd.dddZ".

(** [YYYY-MM-DD HH:mm:ss] *)
Definition timestamp_pattern : string := "dddd-dd-dd dd:dd:dd".

(** [YYYY-MM-DD] and [HH:mm:ss] *)
Definition date_pattern : string := "dddd-dd-dd".
Definition time_pattern : string := "dd:dd:dd".

(** The outcome of [deleteOne] for the outcome of the [updateOne] it
    delegates to. *)
Definition deleted_of (o : Outcome object) : Outcome (option DeleteResponseObject) :=
  match o with
  | Ok r => Ok (if truthy (obj_get "id" r) then Some {| deleted := 1 |} else None)
  | Throw e => Throw (new_Error_of e)
  | Diverge => Diverge
  end.

(** A stub service: every request is answered with the same short page. *)
Definition stub_response : Response :=
  {| res_id := VStr "rec0"; res_fields := [("Name", VStr "order 0")];
     res_records := Some [order 0]; res_offset := VStr "itrNext"; res_tables := None |}.

Definition stub_env : Env :=
  {| axios := fun _ _ => Replied stub_response;
     database_defaults_limit := None;
     pagination := no_pagination;
     now_toISOString := "2024-05-06T07:08:09.123Z";
     date_toISOString := date_only_toISOString |}.

(** ** Requests used in the examples *)

Definition list_orders (off : Z) : DataSourceFindManyOptions :=
  {| opt_schema := orders_schema; opt_where := []; opt_fields := Some ["Name"];
     opt_limit := Some 20; opt_offset := Some off; opt_sort := None |}.

Definition all_orders : DataSourceFindManyOptions :=
  {| opt_schema := orders_schema; opt_where := []; opt_fields := None;
     opt_limit := None; opt_offset := None; opt_sort := None |}.

Definition orders_by_id (o : WhereOperator.t) (v : value) : DataSourceFindManyOptions :=
  {| opt_schema := orders_schema; opt_where := [where_ "id" o v]; opt_fields := None;
     opt_limit := None; opt_offset := None; opt_sort := None |}.

Definition order_by_id (v : value) : DataSourceFindOneOptions :=
  {| fo_schema := orders_schema; fo_where := [where_ "id" WhereOperator.equals v];
     fo_fields := None |}.

(** Two predicates whose operators are not realised, and one on a column
    the schema does not have. *)
Definition unsupported_pair : list DataSourceWhere :=
  [ where_ "Name" WhereOperator.in_ (VStr "a"); where_ "Name" WhereOperator.null VNull ].

Definition unknown_column_predicate : list DataSourceWhere :=
  [ where_ "Total" WhereOperator.equals (VNum 3) ].

Definition name_and_unpaid : list DataSourceWhere :=
  [ where_ "Name" WhereOperator.equals (VStr "a");
    where_ "Paid" WhereOperator.equals (VBool false) ].

Definition unpaid : list DataSourceWhere :=
  [ where_ "Paid" WhereOperator.equals (VBool false) ].

(** The list requests [findMany (list_orders off)] sends: for counting,
    for skipping, and the real fetch. *)
Definition count_page (c : option value) : Request :=
  listRecords_request "Orders"
    {| pageSize := 100; fields := []; filterByFormula := EmptyString; sort := None;
       maxRecords := None; offset := c |}.

Definition skip_page (c : option value) : Request :=
  listRecords_request "Orders"
    {| pageSize := 100; fields := ["Name"]; filterByFormula := EmptyString;
       sort := Some []; maxRecords := None; offset := c |}.

Definition real_page (c : option value) : Request :=
  listRecords_request "Orders"
    {| pageSize := 20; fields := ["Name"]; filterByFormula := EmptyString;
       sort := Some []; maxRecords := Some 20; offset := c |}.

(** An order for a customer the base does not have. *)
Definition order_for_rec999 : DataSourceCreateOneOptions :=
  {| co_schema := orders_schema;
     co_data := [ ("Name", VStr "x"); ("CustomerId", VStr "rec999") ] |}.

(** The reverse relation of [Orders]: the link field of [Customers]. *)
Definition customers_to_orders : DataSourceSchemaRelation :=
  {| rel_table := "Orders"; rel_column := "Orders";
     org_table := "Customers"; org_column := "id" |}.

(** Whether a colon occurs in a string. *)
Fixpoint has_colon (s : string) : bool :=
  match s with
  | EmptyString => false
  | String c r => Ascii.eqb c ":"%char || has_colon r
  end.

(** What the second pass of [getSchema] can add for table [t]: a relation
    whose origin is [t], from a link field of [t] that links to [t] itself. *)
Definition from_self_link (t : AirtableTable) (r : DataSourceSchemaRelation) : Prop :=
  org_table r = tbl_name t /\
  exists f, In f (tbl_fields t) /\ rel_column r = fld_name f /\
            option_map linkedTableId (fld_options f) = Some (tbl_id t).

(** ** The connection probe, the table list and the reverse type map *)

(** [try { m } catch (e) { h e }] *)
Definition try_catch {A} (m : M A) (h : JsError -> M A) : M A :=
  fun t =>
    match m t with
    | (Throw e, t') => h e t'
    | r => r
    end.

(** [fieldMapperRev] *)
Definition fieldMapperRev (t : DataSourceColumnType.t) : AirtableColumnType.t :=
  match t with
  | DataSourceColumnType.STRING => AirtableColumnType.SINGLE_LINE_TEXT
  | DataSourceColumnType.NUMBER => AirtableColumnType.NUMBER
  | DataSourceColumnType.BOOLEAN => AirtableColumnType.CHECKBOX
  | DataSourceColumnType.DATE => AirtableColumnType.DATE_TIME
  | DataSourceColumnType.JSON => AirtableColumnType.MULTILINE_TEXT
  | DataSourceColumnType.ENUM => AirtableColumnType.SINGLE_SELECT
  | DataSourceColumnType.UNKNOWN => AirtableColumnType.MULTILINE_TEXT
  end.

Definition bases_request : Request :=
  {| endpoint := "/meta/bases"; method := GET; data := NoData |}.

(** [checkConnection] *)
Definition checkConnection (env : Env) : M bool :=
  try_catch (_ <- createRequest env bases_request ;; ret true) (fun _ => ret false).

(** [listTables] *)
Definition listTables (env : Env) : M (list string) :=
  rethrowing
    (response <- createRequest env tables_request ;;
     match response with
     | None => throw (TypeError_reading "tables")
     | Some r =>
         match res_tables r with
         | None => throw (TypeError_reading "map")
         | Some tables => ret (map tbl_name tables)
         end
     end).

(** ** More vocabulary *)

(** A request that is not a write. *)
Definition is_read (rq : Request) : Prop := is_write rq = false.

(** A list request asks for at most 100 records. *)
Definition page_capped (rq : Request) : Prop :=
  match data rq with
  | ListRecordsData b => pageSize b <= 100
  | _ => True
  end.

(** The write requests of the class. *)
Definition create_request (schema : DataSourceSchema) (d : object) : Request :=
  {| endpoint := "/BaseId/" ++ table schema; method := POST; data := CreateRecordsData d |}.

Definition update_request (schema : DataSourceSchema) (i : string) (d : object) : Request :=
  {| endpoint := record_endpoint (table schema) i; method := PATCH;
     data := UpdateFieldsData d |}.

Definition delete_request (schema : DataSourceSchema) (i : string) : Request :=
  {| endpoint := record_endpoint (table schema) i; method := DELETE; data := NoData |}.

(** How the relation check leaves a property of [options.data]: as it
    was, or, a truthy scalar under the name of a foreign-key column, as a
    one-element array. *)
Definition wrapped_link (schema : DataSourceSchema) (kv kv' : string * value) : Prop :=
  kv' = kv \/
  (kv' = (fst kv, VArr [snd kv]) /\ isArray (snd kv) = false /\ truthy (snd kv) = true /\
   exists col, In col (columns schema) /\ foreign_key col = true /\ field col = fst kv).

(** No foreign-key column of the schema has a truthy value in [d]. *)
Definition no_links (schema : DataSourceSchema) (d : object) : Prop :=
  Forall (fun col => (foreign_key col && truthy (obj_get (field col) d))%bool = false)
         (columns schema).

(** No predicate is on the primary key. *)
Definition no_primary_key_predicate (schema : DataSourceSchema)
  (ws : list DataSourceWhere) : Prop :=
  Forall (fun w => is_primary_key schema (column w) = false) ws.

(** The first request of [findTotalRecords]. *)
Definition first_count_request (tbl filter : string) : Request :=
  listRecords_request tbl
    {| pageSize := 100; fields := []; filterByFormula := filter; sort := None;
       maxRecords := None; offset := None |}.

(** The real fetch of [findMany]. *)
Definition real_fetch (env : Env) (options : DataSourceFindManyOptions) (filter : string)
  (cursor : option value) : Request :=
  let size := if 100 <? effective_limit env (opt_limit options) then 100
              else effective_limit env (opt_limit options) in
  listRecords_request (table (opt_schema options))
    {| pageSize := size;
       fields := fields_or_columns (opt_fields options) (opt_schema options);
       filterByFormula := filter; sort := Some (sort_specs (opt_sort options));
       maxRecords := Some size; offset := cursor |}.

(** The request [findMany] positions its cursor with when the offset is
    at most 100. *)
Definition position_request (options : DataSourceFindManyOptions) (filter : string)
  (off : Z) : Request :=
  listRecords_request (table (opt_schema options))
    {| pageSize := off;
       fields := fields_or_columns (opt_fields options) (opt_schema options);
       filterByFormula := filter; sort := Some (sort_specs (opt_sort options));
       maxRecords := None; offset := None |}.

(** The records of an answer as [findMany] returns them. *)
Definition flat_records (recs : list AirtableRecord) : list (option object) :=
  map (fun rc => Some (flat_record (rec_id rc) (rec_fields rc))) recs.

(** The keys [formatOutput] keeps. *)
Definition kept_key (fs : option (list string)) (k : string) : bool :=
  match fs with
  | Some (f :: r) => String.eqb k "id" || existsb (String.eqb k) (f :: r)
  | _ => true
  end.

(** What [formatField] makes of the value [v] under key [k]. *)
Definition formatted (env : Env) (schema : DataSourceSchema) (k : string) (v v' : value)
  : Prop :=
  match find_column schema k with
  | Some col =>
      match type col with
      | DataSourceColumnType.DATE =>
          (v = VNull /\ v' = VNull) \/
          (v <> VNull /\ exists s, date_toISOString env v = Some s /\ v' = VStr s)
      | _ => v' = v
      end
  | None => v' = v
  end.

(** An order whose date the [Date] stand-in cannot read. *)
Definition undated_order : AirtableRecord :=
  {| rec_id := VStr "recX";
     rec_fields := [ ("Name", VStr "order X"); ("When", VStr "soon") ] |}.

Definition undated_shop : Base :=
  {| base_tables := catalogue;
     base_records := [ ("Orders", [undated_order]); ("Customers", [customer_A]) ] |}.

(** The answer of the shop to the first counting request when it holds
    exactly 100 orders: a full page, and no cursor. *)
Definition full_last_page : Response :=
  {| res_id := VUndefined; res_fields := [];
     res_records := Some (map order (seq 0 100)); res_offset := VUndefined;
     res_tables := None |}.

(** Orders by name. *)
Definition orders_named (n : string) : list DataSourceWhere :=
  [ where_ "Name" WhereOperator.equals (VStr n) ].

(** The answer of the shop with three orders to a list request without
    cursor for at least three records. *)
Definition three_orders_page : Response :=
  {| res_id := VUndefined; res_fields := [];
     res_records := Some (map order (seq 0 3)); res_offset := VUndefined;
     res_tables := None |}.

(** The answer of the shop with 60 orders to a request for the first 50. *)
Definition first_50_of_60 : Response :=
  {| res_id := VUndefined; res_fields := [];
     res_records := Some (map order (seq 0 50)); res_offset := cursor_at 50;
     res_tables := None |}.

(** [options.data] without the primary key, as [updateOne] makes it before
    the relation check. *)
Definition without_primary_key (schema : DataSourceSchema) (d : object) : object :=
  if truthy (obj_get (primary_key_name schema) d)
  then obj_delete (primary_key_name schema) d else d.

(** A new order without customer, and a renaming of an order. *)
Definition plain_order : DataSourceCreateOneOptions :=
  {| co_schema := orders_schema; co_data := [ ("Name", VStr "x") ] |}.

Definition rename_order : DataSourceUpdateOneOptions :=
  {| uo_id := "rec1"; uo_schema := orders_schema;
     uo_data := [ ("id", VStr "rec2"); ("Name", VStr "y") ] |}.

(** The answer of the shop with three orders to a request for one record. *)
Definition first_order_page : Response :=
  {| res_id := VUndefined; res_fields := [];
     res_records := Some [order 0]; res_offset := cursor_at 1; res_tables := None |}.

(** The requests of the relation check for the ids of one column: for
    each id the catalogue, then the linked record. *)
Definition link_requests (tbl : string) (ids : list value) : list Request :=
  flat_map (fun id => [ tables_request;
                        {| endpoint := record_endpoint tbl (to_string id);
                           method := GET; data := NoData |} ]) ids.

(** Orders by a column the schema lacks, after a checkbox predicate. *)
Definition unpaid_with_total : list DataSourceWhere :=
  [ where_ "Paid" WhereOperator.equals (VBool false);
    where_ "Total" WhereOperator.gt (VNum 3);
    where_ "Paid" WhereOperator.not_equals (VBool false) ].

(** * Properties *)

(** ** Strings *)

Lemma append_assoc (a b c : string) : (a ++ b) ++ c = a ++ (b ++ c).
Proof. induction a as [|x a IH]; simpl; [reflexivity | now rewrite IH]. Qed.

Lemma append_nil_r (a : string) : a ++ EmptyString = a.
Proof. induction a as [|x a IH]; simpl; [reflexivity | now rewrite IH]. Qed.

Lemma length_append (a b : string) :
  String.length (a ++ b) = (String.length a + String.length b)%nat.
Proof. induction a as [|x a IH]; simpl; [reflexivity | now rewrite IH]. Qed.

Lemma substring_0_append (a b : string) :
  substring 0 (String.length a) (a ++ b) = a.
Proof.
  induction a as [|x a IH]; simpl.
  - destruct b; reflexivity.
  - now rewrite IH.
Qed.

Lemma slice_0_m1_comma (s : string) : slice_0_m1 (s ++ ",") = s.
Proof.
  unfold slice_0_m1. rewrite length_append. simpl String.length.
  replace (String.length s + 1 - 1)%nat with (String.length s) by lia.
  apply substring_0_append.
Qed.

(** ** The filter translator *)

Lemma render_spec (w : DataSourceWhere) :
  render w = option_map (fun e => e ++ ",") (spec_expression w).
Proof.
  unfold render, spec_expression.
  destruct (operator w); simpl; try reflexivity;
    repeat (rewrite !append_assoc; simpl); reflexivity.
Qed.

Lemma with_separators_concat (e : string) (es : list string) :
  with_separators (e :: es) = String.concat "," (e :: es) ++ ",".
Proof.
  revert e. induction es as [|e' es IH]; intros e.
  - reflexivity.
  - change (with_separators (e :: e' :: es)) with (e ++ "," ++ with_separators (e' :: es)).
    rewrite IH.
    change (String.concat "," (e :: e' :: es)) with (e ++ "," ++ String.concat "," (e' :: es)).
    now rewrite !append_assoc.
Qed.

Lemma spec_rewrite_found schema w col :
  find_column schema (column w) = Some col ->
  spec_rewrite schema w = checkbox_rewrite col w.
Proof. intros H. unfold spec_rewrite, checkbox_rewrite. now rewrite H. Qed.

Lemma whereToFilter_loop_known schema ws : forall filter,
  Forall (known_column schema) ws ->
  whereToFilter_loop schema ws filter =
    (Ok (filter ++ with_separators (spec_expressions (map (spec_rewrite schema) ws))),
     map (spec_rewrite schema) ws).
Proof.
  induction ws as [|w ws IH]; intros filter Hk.
  - simpl. now rewrite append_nil_r.
  - inversion Hk as [|? ? Hw Hws]; subst.
    simpl. unfold known_column in Hw.
    destruct (find_column schema (column w)) as [col|] eqn:Hc; [|congruence].
    rewrite (spec_rewrite_found _ _ _ Hc).
    rewrite IH by assumption.
    rewrite render_spec.
    destruct (spec_expression (checkbox_rewrite col w)) as [e|]; simpl.
    + now rewrite !append_assoc.
    + reflexivity.
Qed.

Lemma concat_nonempty e es : String.concat "," (e :: es) = EmptyString -> e = EmptyString.
Proof.
  destruct es; simpl; [easy|]. destruct e; simpl; [easy | discriminate].
Qed.

Lemma spec_expression_nonempty w e : spec_expression w = Some e -> e <> EmptyString.
Proof.
  unfold spec_expression. destruct (operator w); simpl; intros H; inversion H; discriminate.
Qed.

Lemma spec_expression_bare w e : spec_expression w = Some e -> prefix "AND(" e = false.
Proof.
  unfold spec_expression. destruct (operator w); simpl; intros H; inversion H; reflexivity.
Qed.

Lemma spec_expressions_head ws e es :
  spec_expressions ws = e :: es -> e <> EmptyString.
Proof.
  induction ws as [|w ws IH]; simpl; [discriminate|].
  destruct (spec_expression w) eqn:Hw.
  - intros H; inversion H; subst. eapply spec_expression_nonempty; eauto.
  - exact IH.
Qed.

(** On predicates whose columns the schema has, [whereToFilter] computes
    the filter the specification words, and leaves the predicates
    rewritten. *)
Lemma whereToFilter_known schema ws :
  Forall (known_column schema) ws ->
  whereToFilter ws schema =
    (Ok (spec_filter (map (spec_rewrite schema) ws)), map (spec_rewrite schema) ws).
Proof.
  intros Hk. destruct ws as [|w ws]; [reflexivity|].
  unfold whereToFilter. rewrite whereToFilter_loop_known by assumption.
  cbn [append].
  set (ws' := map (spec_rewrite schema) (w :: ws)).
  destruct ws as [|w2 ws].
  - simpl. destruct (spec_expression (spec_rewrite schema w)) as [e|]; simpl.
    + now rewrite slice_0_m1_comma.
    + reflexivity.
  - replace (1 <? Z.of_nat (List.length (w :: w2 :: ws))) with true
      by (symmetry; apply Z.ltb_lt; simpl List.length; lia).
    unfold spec_filter. subst ws'.
    change (map (spec_rewrite schema) (w :: w2 :: ws)) with
      (spec_rewrite schema w :: spec_rewrite schema w2 :: map (spec_rewrite schema) ws).
    set (l := spec_rewrite schema w :: spec_rewrite schema w2 :: map (spec_rewrite schema) ws).
    destruct (spec_expressions l) as [|e es] eqn:He.
    + reflexivity.
    + rewrite with_separators_concat, slice_0_m1_comma.
      destruct (String.eqb_spec (String.concat "," (e :: es)) EmptyString) as [Heq|Hne].
      * exfalso. apply concat_nonempty in Heq. eapply spec_expressions_head; eauto.
      * reflexivity.
Qed.

(** C4, amended.  When the column of every predicate is in the schema:
    the empty list gives the empty expression; a single predicate with a
    realised operator gives its bare expression, which does not start
    with [AND(]; two
    or more predicates give AND(e1,...,ek) over the expressions of those
    with a realised operator, in order, with one comma between
    consecutive expressions and none after the last; and a list in which
    no predicate has a realised operator gives the empty expression. *)
Theorem whereToFilter_shape (schema : DataSourceSchema) (ws : list DataSourceWhere) :
  Forall (known_column schema) ws ->
  let ws' := map (spec_rewrite schema) ws in
  (ws = [] -> fst (whereToFilter ws schema) = Ok EmptyString) /\
  (forall e, List.length ws = 1%nat -> spec_expressions ws' = [e] ->
     fst (whereToFilter ws schema) = Ok e /\ prefix "AND(" e = false) /\
  (forall e es, (2 <= List.length ws)%nat -> spec_expressions ws' = e :: es ->
     fst (whereToFilter ws schema) = Ok ("AND(" ++ String.concat "," (e :: es) ++ ")")) /\
  (spec_expressions ws' = [] -> fst (whereToFilter ws schema) = Ok EmptyString).
Proof.
  intros Hk ws'. rewrite (whereToFilter_known _ _ Hk). fold ws'. cbn [fst].
  split; [|split; [|split]].
  - intros ->. reflexivity.
  - intros e Hlen He. destruct ws as [|w [|w2 ws]]; try discriminate.
    subst ws'. simpl in *.
    destruct (spec_expression (spec_rewrite schema w)) as [e'|] eqn:Hw; [|discriminate].
    injection He as <-.
    split; [reflexivity | eapply spec_expression_bare; eauto].
  - intros e es Hlen He. destruct ws as [|w [|w2 ws]]; simpl in Hlen; try lia.
    subst ws'. unfold spec_filter.
    change (map (spec_rewrite schema) (w :: w2 :: ws)) with
      (spec_rewrite schema w :: spec_rewrite schema w2 :: map (spec_rewrite schema) ws) in *.
    now rewrite He.
  - intros He. destruct ws as [|w [|w2 ws]]; [reflexivity| |].
    + subst ws'. simpl in *. destruct (spec_expression (spec_rewrite schema w)); [discriminate | reflexivity].
    + subst ws'. unfold spec_filter.
      change (map (spec_rewrite schema) (w :: w2 :: ws)) with
        (spec_rewrite schema w :: spec_rewrite schema w2 :: map (spec_rewrite schema) ws) in *.
      now rewrite He.
Qed.

(** On [Orders]: orders by name that are not paid. *)
Lemma whereToFilter_shape_witness :
  Forall (known_column orders_schema) name_and_unpaid /\
  fst (whereToFilter name_and_unpaid orders_schema) =
    Ok ("AND({Name}=" ++ dquote ++ "a" ++ dquote ++ ",{Paid}=" ++ dquote ++ dquote ++ ")").
Proof.
  assert (H : Forall (known_column orders_schema) name_and_unpaid)
    by (repeat constructor; vm_compute; discriminate).
  split; [exact H|].
  apply (proj1 (proj2 (proj2 (whereToFilter_shape orders_schema name_and_unpaid H)))
           ("{Name}=" ++ dquote ++ "a" ++ dquote) ["{Paid}=" ++ dquote ++ dquote]).
  - simpl; lia.
  - reflexivity.
Defined.

(** Two predicates whose operators are not realised give the empty
    expression, and a predicate on a column the schema lacks makes the
    call throw. *)
Lemma whereToFilter_counterexample :
  (2 <= List.length unsupported_pair)%nat /\
  fst (whereToFilter unsupported_pair orders_schema) = Ok EmptyString /\
  (forall body, fst (whereToFilter unsupported_pair orders_schema)
                <> Ok ("AND(" ++ body ++ ")")) /\
  List.length unknown_column_predicate = 1%nat /\
  fst (whereToFilter unknown_column_predicate orders_schema) = Throw (TypeError_reading "type").
Proof.
  repeat split; try (simpl; lia).
  intros body. vm_compute. discriminate.
Qed.

Lemma checkbox_rewrite_column col w : column (checkbox_rewrite col w) = column w.
Proof. unfold checkbox_rewrite. destruct (type col), (where_value w) as [| |[|]| | |]; reflexivity. Qed.

Lemma checkbox_rewrite_idem col w :
  checkbox_rewrite col (checkbox_rewrite col w) = checkbox_rewrite col w.
Proof.
  unfold checkbox_rewrite. destruct (type col); try reflexivity.
  destruct (where_value w) as [| |[|]| | |] eqn:Hv; simpl; rewrite ?Hv; reflexivity.
Qed.

Lemma checkbox_rewrite_changed schema col w :
  find_column schema (column w) = Some col ->
  changed_by_checkbox schema w (checkbox_rewrite col w).
Proof.
  intros Hc. unfold checkbox_rewrite, changed_by_checkbox.
  destruct (type col) eqn:Ht; try (now left).
  destruct (where_value w) as [| |[|]| | |] eqn:Hv; try (now left).
  right. repeat split; eauto.
Qed.

Lemma whereToFilter_loop_again schema ws : forall filter,
  whereToFilter_loop schema (snd (whereToFilter_loop schema ws filter)) filter
    = whereToFilter_loop schema ws filter /\
  Forall2 (changed_by_checkbox schema) ws (snd (whereToFilter_loop schema ws filter)).
Proof.
  induction ws as [|w ws IH]; intros filter.
  - simpl. split; [reflexivity | constructor].
  - simpl. destruct (find_column schema (column w)) as [col|] eqn:Hc.
    + set (filter' := match render (checkbox_rewrite col w) with
                      | Some piece => filter ++ piece | None => filter end).
      destruct (IH filter') as [IH1 IH2].
      destruct (whereToFilter_loop schema ws filter') as [r rest'] eqn:Hl.
      simpl in *. rewrite checkbox_rewrite_column, Hc, checkbox_rewrite_idem.
      fold filter'. rewrite IH1. split; [reflexivity|].
      constructor; [now apply checkbox_rewrite_changed | assumption].
    + simpl. rewrite Hc. split; [reflexivity|].
      constructor; [now left|].
      clear. induction ws; constructor; [now left | assumption].
Qed.

Lemma whereToFilter_snd schema ws :
  snd (whereToFilter ws schema) = snd (whereToFilter_loop schema ws EmptyString).
Proof.
  destruct ws as [|w ws]; [reflexivity|].
  unfold whereToFilter. destruct (whereToFilter_loop schema (w :: ws) EmptyString) as [r ws1].
  destruct r; [destruct (1 <? _)| |]; reflexivity.
Qed.

Lemma whereToFilter_again (schema : DataSourceSchema) (ws : list DataSourceWhere) :
  let ws' := snd (whereToFilter ws schema) in
  whereToFilter ws' schema = (fst (whereToFilter ws schema), ws') /\
  Forall2 (changed_by_checkbox schema) ws ws'.
Proof.
  cbv zeta. rewrite whereToFilter_snd.
  destruct (whereToFilter_loop_again schema ws EmptyString) as [H1 H2].
  split; [|assumption].
  destruct ws as [|w ws]; [reflexivity|].
  unfold whereToFilter at 2.
  destruct (whereToFilter_loop schema (w :: ws) EmptyString) as [r ws1] eqn:Hl.
  simpl snd in *.
  assert (Hlen : List.length ws1 = List.length (w :: ws))
    by (symmetry; eapply Forall2_length; eauto).
  destruct ws1 as [|w1 ws1']; [discriminate|].
  unfold whereToFilter. rewrite H1, Hlen.
  destruct r; [destruct (1 <? _)| |]; reflexivity.
Qed.

(** C7, amended.  [whereToFilter] is a function of its arguments, and a
    second call on the predicates as the first call left them yields the
    same expression and changes nothing more.  The schema is only read.
    The predicates are left as they were except that one on a BOOLEAN
    column whose value was [false] has the empty string for value
    afterwards. *)
Theorem whereToFilter_effect (schema : DataSourceSchema) (ws : list DataSourceWhere) :
  let ws' := snd (whereToFilter ws schema) in
  whereToFilter ws' schema = (fst (whereToFilter ws schema), ws') /\
  Forall2 (changed_by_checkbox schema) ws ws'.
Proof. exact (whereToFilter_again schema ws). Qed.

(** After the call the caller's predicate holds the empty string. *)
Lemma whereToFilter_mutates :
  snd (whereToFilter unpaid orders_schema)
    = [ where_ "Paid" WhereOperator.equals (VStr EmptyString) ] /\
  snd (whereToFilter unpaid orders_schema) <> unpaid.
Proof. split; [reflexivity | vm_compute; discriminate]. Qed.

(** ** Running computations *)

Local Open Scope js_scope.

Lemma bind_ok {A B} (m : M A) (k : A -> M B) t a t' :
  m t = (Ok a, t') -> bind m k t = k a t'.
Proof. unfold bind. now intros ->. Qed.

Lemma bind_throw {A B} (m : M A) (k : A -> M B) t e t' :
  m t = (Throw e, t') -> bind m k t = (Throw e, t').
Proof. unfold bind. now intros ->. Qed.

Lemma bind_diverge {A B} (m : M A) (k : A -> M B) t t' :
  m t = (Diverge, t') -> bind m k t = (Diverge, t').
Proof. unfold bind. now intros ->. Qed.

Lemma rethrowing_ok {A} (m : M A) t a t' :
  m t = (Ok a, t') -> rethrowing m t = (Ok a, t').
Proof. unfold rethrowing. now intros ->. Qed.

Lemma rethrowing_throw {A} (m : M A) t e t' :
  m t = (Throw e, t') -> rethrowing m t = (Throw (new_Error_of e), t').
Proof. unfold rethrowing. now intros ->. Qed.

Lemma rethrowing_diverge {A} (m : M A) t t' :
  m t = (Diverge, t') -> rethrowing m t = (Diverge, t').
Proof. unfold rethrowing. now intros ->. Qed.

Lemma rethrowing_snd {A} (m : M A) t : snd (rethrowing m t) = snd (m t).
Proof. unfold rethrowing. destruct (m t) as [[a|e|] t']; reflexivity. Qed.

Lemma rethrowing_thrown {A} (m : M A) t e t' :
  rethrowing m t = (Throw e, t') -> exists e0, e = new_Error_of e0.
Proof.
  unfold rethrowing. destruct (m t) as [[a|e0|] t0]; intros H; inversion H; eauto.
Qed.

(** ** What a computation sends *)

Lemma sends_only_ret {A} P (a : A) : sends_only P (ret a).
Proof. intros t. exists []. now rewrite app_nil_r. Qed.

Lemma sends_only_throw {A} P e : sends_only P (@throw A e).
Proof. intros t. exists []. now rewrite app_nil_r. Qed.

Lemma sends_only_diverge {A} P : sends_only P (@diverge A).
Proof. intros t. exists []. now rewrite app_nil_r. Qed.

Lemma sends_only_lift {A} P (o : Outcome A) : sends_only P (lift o).
Proof. intros t. exists []. now rewrite app_nil_r. Qed.

Lemma sends_only_bind {A B} P (m : M A) (k : A -> M B) :
  sends_only P m -> (forall a, sends_only P (k a)) -> sends_only P (bind m k).
Proof.
  intros Hm Hk t. unfold bind. destruct (Hm t) as (l & Hl & HP).
  destruct (m t) as [[a|e|] t']; simpl in Hl; subst t';
    [|exists l; now split..].
  destruct (Hk a (t ++ l)%list) as (l' & Hl' & HP').
  exists (l ++ l')%list. rewrite Hl', app_assoc. split; [reflexivity|].
  apply Forall_app; now split.
Qed.

Lemma sends_only_rethrowing {A} P (m : M A) : sends_only P m -> sends_only P (rethrowing m).
Proof. intros Hm t. rewrite rethrowing_snd. apply Hm. Qed.

Lemma sends_only_createRequest env P rq : P rq -> sends_only P (createRequest env rq).
Proof.
  intros HP t. exists [rq]. split; [|now constructor].
  unfold createRequest. destruct (axios env t rq); reflexivity.
Qed.

Create HintDb sends.
#[local] Hint Resolve sends_only_ret sends_only_throw sends_only_diverge sends_only_lift
  sends_only_rethrowing sends_only_createRequest : sends.

Section Reads.

Variable env : Env.
Variable P : Request -> Prop.
Hypothesis P_get : forall e, P {| endpoint := e; method := GET; data := NoData |}.
Hypothesis P_list : forall tbl b, P (listRecords_request tbl b).

Lemma sends_only_getSchema target : sends_only P (getSchema env target).
Proof.
  unfold getSchema. apply sends_only_rethrowing, sends_only_bind.
  - apply sends_only_createRequest, P_get.
  - intros [r|]; [destruct (res_tables r)|]; auto with sends.
Qed.

Lemma sends_only_findTotalRecords_loop tbl filter : forall fuel cursor total,
  sends_only P (findTotalRecords_loop env fuel tbl filter cursor total).
Proof.
  induction fuel as [|fuel IH]; intros cursor total; cbn [findTotalRecords_loop].
  - auto with sends.
  - apply sends_only_bind; [apply sends_only_createRequest, P_list|].
    intros [r|]; [|auto with sends].
    destruct (res_records r) as [[|rc recs]|]; auto with sends.
    destruct (_ <? 100); auto with sends.
Qed.

Lemma sends_only_findTotalRecords fuel schema ws :
  sends_only P (findTotalRecords env fuel schema ws).
Proof.
  unfold findTotalRecords. apply sends_only_rethrowing, sends_only_bind; auto with sends.
  intros filter. apply sends_only_findTotalRecords_loop.
Qed.

Lemma sends_only_findMany_skip tbl fs filter srt target : forall fuel temp cur,
  sends_only P (findMany_skip env fuel tbl fs filter srt target temp cur).
Proof.
  induction fuel as [|fuel IH]; intros temp cur; cbn [findMany_skip];
    destruct (temp <? target); auto with sends.
  apply sends_only_bind; [apply sends_only_createRequest, P_list|].
  intros [r|]; auto with sends.
Qed.

Lemma sends_only_findMany_page fuel options total :
  sends_only P (findMany_page env fuel options total).
Proof.
  unfold findMany_page. apply sends_only_bind; [auto with sends|]. intros filter.
  apply sends_only_bind.
  - destruct (opt_offset options) as [off|]; [|auto with sends].
    destruct (off =? 0); [auto with sends|].
    destruct (100 <? off).
    + apply sends_only_bind; [apply sends_only_findMany_skip | auto with sends].
    + apply sends_only_bind; [apply sends_only_createRequest, P_list|].
      intros [r|]; auto with sends.
  - intros cursor. apply sends_only_bind; [apply sends_only_createRequest, P_list|].
    intros [r|]; [destruct (res_records r)|]; auto with sends.
Qed.

Lemma sends_only_findOne_with findMany_ options :
  (forall o, sends_only P (findMany_ o)) ->
  sends_only P (findOne_with env findMany_ options).
Proof.
  intros Hmany. unfold findOne_with. apply sends_only_rethrowing.
  destruct (negb _).
  - apply sends_only_bind; [apply Hmany | auto with sends].
  - apply sends_only_bind; [apply sends_only_createRequest, P_get|].
    intros [r|]; [|auto with sends].
    destruct (negb _); [auto with sends|].
    apply sends_only_bind; auto with sends.
Qed.

Lemma sends_only_findMany : forall fuel options, sends_only P (findMany env fuel options).
Proof.
  induction fuel as [|fuel IH]; intros options; cbn [findMany]; [auto with sends|].
  destruct (single_primary_key_predicate _ _).
  - apply sends_only_bind; [now apply sends_only_findOne_with | auto with sends].
  - apply sends_only_bind; [apply sends_only_findTotalRecords|].
    intros total. apply sends_only_rethrowing, sends_only_findMany_page.
Qed.

Lemma sends_only_findOne fuel options : sends_only P (findOne env fuel options).
Proof. apply sends_only_findOne_with, sends_only_findMany. Qed.

Lemma sends_only_check_linked_ids fuel linkedTable : forall ids,
  sends_only P (check_linked_ids env fuel linkedTable ids).
Proof.
  induction ids as [|id ids IH]; cbn [check_linked_ids]; [auto with sends|].
  destruct linkedTable as [l|]; [|auto with sends].
  apply sends_only_bind; [apply sends_only_getSchema|]. intros linkedSchema.
  apply sends_only_bind; [apply sends_only_findOne|].
  intros [r|]; auto with sends.
Qed.

Lemma sends_only_check_relations fuel schema : forall cols d,
  sends_only P (check_relations env fuel schema cols d).
Proof.
  induction cols as [|col cols IH]; intros d; cbn [check_relations]; [auto with sends|].
  destruct (foreign_key col && truthy _)%bool; [|apply IH].
  apply sends_only_bind; [apply sends_only_check_linked_ids | intros _; apply IH].
Qed.

End Reads.

(** ** The schema resolver *)

Lemma getSchema_fields_columns tables target : forall fs cols rels cols' rels',
  getSchema_fields tables target fs cols rels = Ok (cols', rels') ->
  exists added, cols' = (cols ++ added)%list.
Proof.
  induction fs as [|f fs IH]; intros cols rels cols' rels'; cbn [getSchema_fields].
  - intros H. inversion H. exists []. now rewrite app_nil_r.
  - unfold bindO at 1.
    destruct (if AirtableColumnType.is_links (fld_type f) then _ else _) as [rels1|e|];
      try discriminate.
    intros H. apply IH in H. destruct H as [added ->].
    exists (column_of_field f :: added). now rewrite <- app_assoc.
Qed.

Lemma getSchema_of_primary_key tables target s :
  getSchema_of tables target = Ok s -> schema_primary_key s = Some "id".
Proof.
  unfold getSchema_of. destruct (find _ tables) as [t|]; [|discriminate].
  destruct (getSchema_fields tables target (tbl_fields t) [id_column] []) as [[cols rels]|e|] eqn:Hf;
    try discriminate.
  apply getSchema_fields_columns in Hf. destruct Hf as [added ->].
  cbn [bindO fst snd]. destruct (getSchema_reverse target tables rels); try discriminate.
  cbn [bindO]. intros H. inversion H. reflexivity.
Qed.

Lemma getSchema_reverse_fields_added target t : forall fs rels rels',
  incl fs (tbl_fields t) ->
  getSchema_reverse_fields target t fs rels = Ok rels' ->
  exists added, rels' = (rels ++ added)%list /\ Forall (from_self_link t) added.
Proof.
  induction fs as [|f fs IH]; intros rels rels' Hin; cbn [getSchema_reverse_fields].
  - intros H. inversion H. exists []. now rewrite app_nil_r.
  - assert (Hfs : incl fs (tbl_fields t)) by (intros x Hx; apply Hin; now right).
    destruct (AirtableColumnType.is_links (fld_type f)); [|now apply IH].
    destruct (fld_options f) as [o|] eqn:Ho; [|discriminate].
    destruct (String.eqb_spec (linkedTableId o) (tbl_id t)) as [Heq|Hne]; [|now apply IH].
    intros H. apply IH in H; [|assumption]. destruct H as (added & -> & Hadded).
    eexists. rewrite <- app_assoc. split; [reflexivity|].
    constructor; [|assumption].
    split; [reflexivity|]. exists f. split; [apply Hin; now left|].
    split; [reflexivity|]. rewrite Ho. cbn. now rewrite Heq.
Qed.

(** Every relation the second pass of [getSchema] adds comes from a field
    that links its own table: a link from another table to the target adds
    none. *)
Lemma getSchema_reverse_added target : forall ts rels rels',
  getSchema_reverse target ts rels = Ok rels' ->
  exists added, rels' = (rels ++ added)%list /\
                Forall (fun r => exists t, In t ts /\ from_self_link t r) added.
Proof.
  induction ts as [|t ts IH]; intros rels rels'; cbn [getSchema_reverse].
  - intros H. inversion H. exists []. now rewrite app_nil_r.
  - unfold bindO at 1.
    destruct (getSchema_reverse_fields target t (tbl_fields t) rels) as [rels1|e|] eqn:Hf;
      try discriminate.
    apply getSchema_reverse_fields_added in Hf; [|apply incl_refl].
    destruct Hf as (added1 & -> & H1).
    intros H. apply IH in H. destruct H as (added2 & -> & H2).
    exists (added1 ++ added2)%list. rewrite app_assoc. split; [reflexivity|].
    apply Forall_app. split.
    + eapply Forall_impl; [|exact H1]. intros r Hr. exists t. split; [now left | assumption].
    + eapply Forall_impl; [|exact H2]. intros r (t0 & Ht0 & Hr). exists t0.
      split; [now right | assumption].
Qed.

(** C2.  [Customers] has a link field to [Orders], and the schema
    [getSchema] returns for [Orders] holds the forward relation only: no
    relation with origin [Customers] is appended. *)
Theorem getSchema_Orders_relations :
  In (link_field "Orders" (tbl_id orders_table)) (tbl_fields customers_table) /\
  getSchema (base_env (shop 0)) "Orders" [] = (Ok orders_schema, [tables_request]) /\
  ~ In customers_to_orders (relations orders_schema) /\
  forall r, In r (relations orders_schema) -> org_table r <> "Customers".
Proof.
  split; [right; left; reflexivity|].
  split; [vm_compute; reflexivity|].
  split.
  - intros [H|[]]; discriminate H.
  - intros r [<-|[]]. discriminate.
Qed.

(** ** The record mapper *)

Lemma formatField_null env ty : formatField env ty VNull = Ok VNull.
Proof. reflexivity. Qed.

Lemma formatField_other env ty v :
  ty <> DataSourceColumnType.DATE -> formatField env ty v = Ok v.
Proof. intros H. destruct ty, v; try reflexivity; contradiction. Qed.

Lemma formatField_date env v s :
  v <> VNull -> date_toISOString env v = Some s ->
  formatField env DataSourceColumnType.DATE v = Ok (VStr s).
Proof. intros Hv Hs. destruct v; try contradiction; cbn; now rewrite Hs. Qed.

(** ** Single records and the short circuit *)

Section Finding.

Variable env : Env.

(** [findMany] on a single primary-key predicate is [findOne] wrapped. *)
Lemma findMany_short_circuit fuel options t :
  single_primary_key_predicate (opt_schema options) (opt_where options) = true ->
  findMany env (S fuel) options t =
    match findOne env fuel {| fo_schema := opt_schema options;
                              fo_where := opt_where options;
                              fo_fields := opt_fields options |} t with
    | (Ok r, t') =>
        (Ok {| fm_limit := opt_limit options;
               fm_offset := opt_offset options;
               fm_total := 1;
               fm_pagination_total := 1;
               fm_page := page_tokens env (opt_limit options) (opt_offset options) 1;
               fm_data := [r] |}, t')
    | (Throw e, t') => (Throw e, t')
    | (Diverge, t') => (Diverge, t')
    end.
Proof.
  intros H. cbn [findMany]. rewrite H. unfold bind, findOne.
  destruct (findOne_with env (findMany env fuel) _ t) as [[r|e|] t']; reflexivity.
Qed.

(** C3, amended.  For every schema and every where list made of a single
    equals predicate on the primary key, [findMany] does what [findOne]
    does with that predicate and those fields: when [findOne] returns [r],
    [findMany] returns with total 1 and the one-element data array [[r]],
    having sent the same requests; when [findOne] throws, [findMany]
    throws the same error, having sent the same requests, and returns
    nothing. *)
Theorem findMany_primary_key_equals
  fuel schema w fs limit offset_ sort_ t :
  is_primary_key schema (column w) = true ->
  operator w = WhereOperator.equals ->
  let one := findOne env fuel
               {| fo_schema := schema; fo_where := [w]; fo_fields := fs |} t in
  let many := findMany env (S fuel)
                {| opt_schema := schema; opt_where := [w]; opt_fields := fs;
                   opt_limit := limit; opt_offset := offset_; opt_sort := sort_ |} t in
  (forall r t', one = (Ok r, t') ->
     exists resp, many = (Ok resp, t') /\
                  fm_total resp = 1 /\ fm_data resp = [r]) /\
  (forall e t', one = (Throw e, t') -> many = (Throw e, t')) /\
  (forall resp t', many = (Ok resp, t') ->
     exists r, one = (Ok r, t') /\ fm_total resp = 1 /\ fm_data resp = [r]).
Proof.
  intros Hpk _ one many. unfold many.
  rewrite findMany_short_circuit by exact Hpk.
  cbn [opt_schema opt_where opt_fields]. fold one.
  split; [|split].
  - intros r t' ->. eexists. split; [reflexivity|]. split; reflexivity.
  - now intros e t' ->.
  - intros resp t'. destruct one as [[r|e|] t1]; try discriminate.
    intros [= <- <-]. exists r. repeat split.
Qed.

(** [findOne] when the predicate on the primary key has a truthy value. *)
Lemma findOne_point_fetch findMany_ schema w fs t :
  is_primary_key schema (column w) = true ->
  truthy (where_value w) = true ->
  let options := {| fo_schema := schema; fo_where := [w]; fo_fields := fs |} in
  let rq := point_fetch schema (where_value w) in
  findOne_with env findMany_ options t =
    (match axios env t rq with
     | Replied r =>
         if truthy (res_id r) then
           match formatOutput env options (flat_record (res_id r) (res_fields r)) with
           | Ok out => Ok (Some out)
           | Throw e => Throw (new_Error_of e)
           | Diverge => Diverge
           end
         else Throw (new_Error_of (Error "Record not found"))
     | HttpError => Throw (new_Error_of (TypeError_reading "id"))
     | NetworkError => Throw (new_Error_of (TypeError_reading "data"))
     end, (t ++ [rq])%list).
Proof.
  intros Hpk Hv options rq.
  unfold findOne_with, rethrowing, bind. cbn [fo_schema fo_where fo_fields options find].
  rewrite Hpk, Hv. cbn [negb].
  unfold createRequest. fold (point_fetch schema (where_value w)). fold rq.
  destruct (axios env t rq) as [r| |]; try reflexivity.
  destruct (truthy (res_id r)); cbn [negb]; [|reflexivity].
  unfold lift. destruct (formatOutput env _ _); reflexivity.
Qed.

Lemma formatOutput_fields_only o1 o2 obj :
  fo_schema o1 = fo_schema o2 -> fo_fields o1 = fo_fields o2 ->
  formatOutput env o1 obj = formatOutput env o2 obj.
Proof. unfold formatOutput. now intros -> ->. Qed.

(** With a falsy value for the primary key [findOne] hands over to
    [findMany], which hands back, until the stack is full: both throw,
    having sent nothing, the engine's error wrapped once by every
    [findOne] it went through. *)
Lemma findMany_falsy_id schema w :
  is_primary_key schema (column w) = true ->
  truthy (where_value w) = false ->
  forall fuel fs limit offset_ sort_ t,
    findMany env fuel
      {| opt_schema := schema; opt_where := [w]; opt_fields := fs;
         opt_limit := limit; opt_offset := offset_; opt_sort := sort_ |} t
      = (Throw (wrapped fuel stack_overflow), t).
Proof.
  intros Hpk Hv. induction fuel as [|fuel IH]; intros fs limit offset_ sort_ t.
  - reflexivity.
  - rewrite findMany_short_circuit by exact Hpk.
    unfold findOne, findOne_with, rethrowing, bind.
    cbn [fo_schema fo_where fo_fields opt_schema opt_where opt_fields find].
    rewrite Hpk, Hv. cbn [negb]. rewrite IH. reflexivity.
Qed.

Lemma findOne_falsy_id schema w fuel fs t :
  is_primary_key schema (column w) = true ->
  truthy (where_value w) = false ->
  findOne env fuel {| fo_schema := schema; fo_where := [w]; fo_fields := fs |} t
    = (Throw (wrapped (S fuel) stack_overflow), t).
Proof.
  intros Hpk Hv. unfold findOne, findOne_with, rethrowing, bind.
  cbn [fo_schema fo_where fo_fields find]. rewrite Hpk, Hv. cbn [negb].
  rewrite findMany_falsy_id by assumption. reflexivity.
Qed.

(** C10, amended.  For every [findMany] call whose where list is a single
    predicate on the primary key with a truthy value, whatever the
    operator: exactly one request is sent, the point fetch of the record
    whose id is that value, so no filter is sent; the call returns only if
    the fetch is answered with a record that has an id, and then, the
    record being formatted, with total 1 and that record for data; and the
    call does what it does for the operator [equals]. *)
Theorem findMany_primary_key_any_operator
  fuel schema c op v fs limit offset_ sort_ t :
  is_primary_key schema c = true ->
  truthy v = true ->
  let options o :=
    {| opt_schema := schema; opt_where := [where_ c o v]; opt_fields := fs;
       opt_limit := limit; opt_offset := offset_; opt_sort := sort_ |} in
  let rq := point_fetch schema v in
  snd (findMany env (S fuel) (options op) t) = (t ++ [rq])%list /\
  (forall r out,
     axios env t rq = Replied r -> truthy (res_id r) = true ->
     formatOutput env {| fo_schema := schema; fo_where := [where_ c op v];
                         fo_fields := fs |}
       (flat_record (res_id r) (res_fields r)) = Ok out ->
     exists resp, fst (findMany env (S fuel) (options op) t) = Ok resp /\
                  fm_total resp = 1 /\ fm_data resp = [Some out]) /\
  (forall resp, fst (findMany env (S fuel) (options op) t) = Ok resp ->
     exists r, axios env t rq = Replied r /\ truthy (res_id r) = true) /\
  findMany env (S fuel) (options op) t
    = findMany env (S fuel) (options WhereOperator.equals) t.
Proof.
  intros Hpk Hv options rq.
  assert (Hrun : forall o,
    findMany env (S fuel) (options o) t =
    (match axios env t rq with
     | Replied r =>
         if truthy (res_id r) then
           match formatOutput env {| fo_schema := schema; fo_where := [where_ c op v];
                                     fo_fields := fs |}
                   (flat_record (res_id r) (res_fields r)) with
           | Ok out =>
               Ok {| fm_limit := limit; fm_offset := offset_; fm_total := 1;
                     fm_pagination_total := 1;
                     fm_page := page_tokens env limit offset_ 1;
                     fm_data := [Some out] |}
           | Throw e => Throw (new_Error_of e)
           | Diverge => Diverge
           end
         else Throw (new_Error_of (Error "Record not found"))
     | HttpError => Throw (new_Error_of (TypeError_reading "id"))
     | NetworkError => Throw (new_Error_of (TypeError_reading "data"))
     end, (t ++ [rq])%list)).
  { intros o. rewrite findMany_short_circuit by exact Hpk.
    unfold findOne. cbn [options opt_schema opt_where opt_fields opt_limit opt_offset].
    rewrite (findOne_point_fetch (findMany env fuel) schema (where_ c o v) fs t Hpk Hv).
    cbn [where_ where_value]. fold rq.
    destruct (axios env t rq) as [r| |]; try reflexivity.
    destruct (truthy (res_id r)); [|reflexivity].
    rewrite (formatOutput_fields_only _
               {| fo_schema := schema; fo_where := [where_ c op v]; fo_fields := fs |})
      by reflexivity.
    destruct (formatOutput env _ _); reflexivity. }
  repeat split.
  - now rewrite Hrun.
  - intros r out Hr Hid Hout. rewrite Hrun, Hr, Hid, Hout. cbn [fst].
    eexists. repeat split.
  - intros resp. rewrite Hrun. cbn [fst].
    destruct (axios env t rq) as [r| |]; try discriminate.
    destruct (truthy (res_id r)) eqn:Hid; [|discriminate].
    intros _. now exists r.
  - now rewrite !Hrun.
Qed.

End Finding.

(** The order [rec1] by id. *)
Lemma findMany_primary_key_equals_witness :
  exists resp,
    findMany (base_env (shop 3)) 1 (orders_by_id WhereOperator.equals (VStr "rec1")) []
      = (Ok resp, [point_fetch orders_schema (VStr "rec1")]) /\
    fm_total resp = 1 /\
    fm_data resp = [Some [("id", VStr "rec1"); ("Name", VStr "order 1");
                          ("When", VStr "2024-01-15T00:00:00.000Z")]].
Proof.
  apply (proj1 (findMany_primary_key_equals (base_env (shop 3)) 0 orders_schema
                  (where_ "id" WhereOperator.equals (VStr "rec1")) None None None None []
                  eq_refl eq_refl)).
  reflexivity.
Defined.

(** For an id that no order has, the fetch is refused and [findMany]
    throws: whatever the depth allowed, it returns no total and no data. *)
Lemma findMany_equals_absent_record :
  findMany (base_env (shop 3)) 1 (orders_by_id WhereOperator.equals (VStr "rec999")) []
    = (Throw (new_Error_of (TypeError_reading "id")),
       [point_fetch orders_schema (VStr "rec999")]) /\
  ~ exists fuel resp t',
      findMany (base_env (shop 3)) fuel
        (orders_by_id WhereOperator.equals (VStr "rec999")) [] = (Ok resp, t').
Proof.
  split; [reflexivity|].
  intros (fuel & resp & t' & H). destruct fuel as [|fuel]; [discriminate|].
  unfold orders_by_id in H.
  rewrite findMany_short_circuit in H by reflexivity.
  unfold findOne in H. cbn [opt_schema opt_where opt_fields] in H.
  rewrite findOne_point_fetch in H by reflexivity.
  discriminate.
Qed.

(** Orders with an id greater than [rec1]: the order [rec1] is fetched. *)
Lemma findMany_primary_key_any_operator_witness :
  snd (findMany (base_env (shop 3)) 1 (orders_by_id WhereOperator.gt (VStr "rec1")) [])
    = [point_fetch orders_schema (VStr "rec1")] /\
  findMany (base_env (shop 3)) 1 (orders_by_id WhereOperator.gt (VStr "rec1")) []
    = findMany (base_env (shop 3)) 1 (orders_by_id WhereOperator.equals (VStr "rec1")) [].
Proof.
  pose proof (findMany_primary_key_any_operator (base_env (shop 3)) 0 orders_schema
                "id" WhereOperator.gt (VStr "rec1") None None None None []
                eq_refl eq_refl) as H.
  split; [exact (proj1 H) | exact (proj2 (proj2 (proj2 H)))].
Defined.

(** Orders with an id greater than [rec999], an id that no order has: the
    record [rec999] is asked for, the fetch is refused and [findMany]
    throws; whatever the depth allowed, no total is reported. *)
Lemma findMany_gt_absent_record :
  findMany (base_env (shop 3)) 1 (orders_by_id WhereOperator.gt (VStr "rec999")) []
    = (Throw (new_Error_of (TypeError_reading "id")),
       [point_fetch orders_schema (VStr "rec999")]) /\
  ~ exists fuel resp t',
      findMany (base_env (shop 3)) fuel
        (orders_by_id WhereOperator.gt (VStr "rec999")) [] = (Ok resp, t').
Proof.
  split; [reflexivity|].
  intros (fuel & resp & t' & H). destruct fuel as [|fuel]; [discriminate|].
  unfold orders_by_id in H.
  rewrite findMany_short_circuit in H by reflexivity.
  unfold findOne in H. cbn [opt_schema opt_where opt_fields] in H.
  rewrite findOne_point_fetch in H by reflexivity.
  discriminate.
Qed.

(** ** Counting and paging *)

Lemma skip_rounds_bounds off :
  100 < off ->
  off <= 100 * Z.of_nat (skip_rounds off) /\ 100 * (Z.of_nat (skip_rounds off) - 1) < off.
Proof.
  intros H. unfold skip_rounds.
  rewrite Z2Nat.id by (apply Z.div_pos; lia).
  pose proof (Z.div_mod (off + 99) 100 ltac:(lia)) as Hd.
  pose proof (Z.mod_pos_bound (off + 99) 100 ltac:(lia)) as Hm.
  lia.
Qed.

Section Paging.

Variable env : Env.

(** On a full page [findTotalRecords] goes on with the size of that page
    for total, whatever the total was. *)
Lemma findTotalRecords_loop_full_page fuel tbl filter cursor total t r recs :
  let rq := listRecords_request tbl
              {| pageSize := 100; fields := []; filterByFormula := filter; sort := None;
                 maxRecords := None; offset := prune cursor |} in
  axios env t rq = Replied r ->
  res_records r = Some recs ->
  100 <= Z.of_nat (List.length recs) ->
  findTotalRecords_loop env (S fuel) tbl filter cursor total t
    = findTotalRecords_loop env fuel tbl filter (res_offset r)
        (Z.of_nat (List.length recs)) (t ++ [rq])%list.
Proof.
  intros rq Hr Hrecs Hfull. cbn [findTotalRecords_loop]. fold rq.
  unfold bind, createRequest. rewrite Hr, Hrecs.
  destruct recs as [|rc recs]; [simpl in Hfull; lia|].
  replace (Z.of_nat (List.length (rc :: recs)) <? 100) with false
    by (symmetry; apply Z.ltb_ge; exact Hfull).
  reflexivity.
Qed.

Lemma findTotalRecords_ok_filter fuel schema ws t total t1 :
  findTotalRecords env fuel schema ws t = (Ok total, t1) ->
  exists filter, fst (whereToFilter ws schema) = Ok filter.
Proof.
  unfold findTotalRecords, rethrowing, bind, lift.
  destruct (fst (whereToFilter ws schema)) as [filter|e|]; [eauto | discriminate..].
Qed.

(** The records [findMany] returns from a list request are the records of
    the answer, flattened and otherwise as they came. *)
Lemma findMany_page_data fuel options total t resp t' :
  findMany_page env fuel options total t = (Ok resp, t') ->
  exists recs,
    fm_data resp = map (fun rc => Some (flat_record (rec_id rc) (rec_fields rc))) recs.
Proof.
  unfold findMany_page.
  do 3 (unfold bind at 1;
        match goal with
        | |- match ?m with _ => _ end = _ -> _ => destruct m as [[?|?|] ?]; try discriminate
        end).
  match goal with
  | |- match ?m with _ => _ end _ = _ -> _ => destruct m as [r|]; try discriminate
  end.
  destruct (res_records r) as [recs|]; try discriminate.
  unfold ret. intros H. inversion H. cbn [fm_data]. now exists recs.
Qed.

Hypothesis always_replies : forall t rq, exists r, axios env t rq = Replied r.

Lemma findMany_skip_run tbl fs filter srt target : forall rounds fuel temp cur t,
  (rounds <= fuel)%nat ->
  target <= temp + 100 * Z.of_nat rounds ->
  (temp + 100 * (Z.of_nat rounds - 1) < target \/ rounds = O) ->
  exists skips,
    findMany_skip env fuel tbl fs filter srt target temp cur t = (Ok tt, (t ++ skips)%list) /\
    List.length skips = rounds /\
    skips_chain env tbl fs filter srt t (prune cur) skips.
Proof.
  induction rounds as [|rounds IH]; intros fuel temp cur t Hfuel Hup Hlow.
  - exists []. rewrite app_nil_r. split; [|split; [reflexivity | exact I]].
    destruct fuel; simpl; replace (temp <? target) with false
      by (symmetry; apply Z.ltb_ge; lia); reflexivity.
  - destruct fuel as [|fuel]; [lia|].
    destruct Hlow as [Hlow|]; [|discriminate].
    cbn [findMany_skip].
    replace (temp <? target) with true by (symmetry; apply Z.ltb_lt; lia).
    set (rq := listRecords_request tbl
                 {| pageSize := 100; fields := fs; filterByFormula := filter;
                    sort := Some srt; maxRecords := None; offset := prune cur |}).
    destruct (always_replies t rq) as [r Hr].
    unfold bind, createRequest. rewrite Hr.
    destruct (IH fuel (temp + 100) (res_offset r) (t ++ [rq])%list) as (skips & Hrun & Hlen & Hchain);
      [lia | lia | destruct rounds; [now right | left; lia] |].
    exists (rq :: skips). rewrite Hrun, <- app_assoc. split; [reflexivity|].
    split; [simpl; now rewrite Hlen|].
    split; [reflexivity|]. exists r. now split.
Qed.

(** The requests of [findMany] beyond offset 100; the real fetch carries
    the number [off] where a cursor goes. *)
Lemma findMany_beyond_100_requests fuel options off total t t1 :
  single_primary_key_predicate (opt_schema options) (opt_where options) = false ->
  opt_offset options = Some off ->
  100 < off ->
  findTotalRecords env fuel (opt_schema options) (opt_where options) t = (Ok total, t1) ->
  (skip_rounds off <= fuel)%nat ->
  let tbl := table (opt_schema options) in
  let fs := fields_or_columns (opt_fields options) (opt_schema options) in
  let srt := sort_specs (opt_sort options) in
  let size := if 100 <? effective_limit env (opt_limit options) then 100
              else effective_limit env (opt_limit options) in
  exists filter skips,
    fst (whereToFilter (opt_where options) (opt_schema options)) = Ok filter /\
    snd (findMany env (S fuel) options t)
      = (t1 ++ skips ++
           [listRecords_request tbl
              {| pageSize := size; fields := fs; filterByFormula := filter;
                 sort := Some srt; maxRecords := Some size;
                 offset := Some (VNum off) |}])%list /\
    List.length skips = skip_rounds off /\
    skips_chain env tbl fs filter srt t1 None skips.
Proof.
  intros Hnot Hoff Hbig Htotal Hfuel tbl fs srt size.
  destruct (findTotalRecords_ok_filter _ _ _ _ _ _ Htotal) as [filter Hfilter].
  destruct (skip_rounds_bounds off Hbig) as [Hup Hlow].
  destruct (findMany_skip_run tbl fs filter srt off (skip_rounds off) fuel 0 VNull t1)
    as (skips & Hrun & Hlen & Hchain); [assumption | lia | left; lia |].
  exists filter, skips.
  split; [assumption|]. split; [|split; assumption].
  cbn [findMany]. rewrite Hnot.
  rewrite (bind_ok _ _ _ _ _ Htotal), rethrowing_snd.
  unfold findMany_page.
  destruct (whereToFilter_again (opt_schema options) (opt_where options)) as [Hagain _].
  cbv zeta in Hagain. rewrite Hagain, Hfilter, Hoff. cbn [fst].
  unfold lift at 1. unfold bind at 1.
  replace (off =? 0) with false by (symmetry; apply Z.eqb_neq; lia).
  replace (100 <? off) with true by (symmetry; apply Z.ltb_lt; lia).
  fold tbl fs srt.
  unfold bind at 1. unfold bind at 1. rewrite Hrun. unfold ret at 1.
  cbn [prune]. fold size.
  set (real := listRecords_request tbl _).
  destruct (always_replies (t1 ++ skips)%list real) as [r Hr].
  unfold bind, createRequest. rewrite Hr.
  destruct (res_records r); cbn [snd]; now rewrite <- app_assoc.
Qed.

(** C6, amended.  For every [findMany] request with an offset above 100
    that takes the list path, once the total is counted and when the
    service answers every request: [ceil(offset / 100)] skip requests are
    sent, each for a 100-record page with the fields, filter and sort of the
    real fetch, the first without a cursor and each later one with the
    cursor of the answer before it, and then the real fetch is sent. *)
Theorem findMany_skips_beyond_100 fuel options off total t t1 :
  single_primary_key_predicate (opt_schema options) (opt_where options) = false ->
  opt_offset options = Some off ->
  100 < off ->
  findTotalRecords env fuel (opt_schema options) (opt_where options) t = (Ok total, t1) ->
  (skip_rounds off <= fuel)%nat ->
  let tbl := table (opt_schema options) in
  let fs := fields_or_columns (opt_fields options) (opt_schema options) in
  let srt := sort_specs (opt_sort options) in
  let size := if 100 <? effective_limit env (opt_limit options) then 100
              else effective_limit env (opt_limit options) in
  exists filter skips cursor,
    fst (whereToFilter (opt_where options) (opt_schema options)) = Ok filter /\
    snd (findMany env (S fuel) options t)
      = (t1 ++ skips ++
           [listRecords_request tbl
              {| pageSize := size; fields := fs; filterByFormula := filter;
                 sort := Some srt; maxRecords := Some size; offset := cursor |}])%list /\
    List.length skips = skip_rounds off /\
    skips_chain env tbl fs filter srt t1 None skips.
Proof.
  intros Hnot Hoff Hbig Htotal Hfuel tbl fs srt size.
  destruct (findMany_beyond_100_requests fuel options off total t t1
              Hnot Hoff Hbig Htotal Hfuel) as (filter & skips & H).
  exists filter, skips, (Some (VNum off)). exact H.
Qed.

End Paging.

(** C1.  With 250 orders in the base, answered in pages of 100, 100 and
    50 records, [findTotalRecords] returns 150: a full page replaces the
    running total by its own size instead of adding to it. *)
Theorem findTotalRecords_250_orders :
  List.length (map order (seq 0 250)) = 250%nat /\
  findTotalRecords (base_env (shop 250)) 3 orders_schema [] []
    = (Ok 150, [ count_page None; count_page (Some (cursor_at 100));
                 count_page (Some (cursor_at 200)) ]).
Proof. split; vm_compute; reflexivity. Qed.

(** C5.  [When] is a DATE column.  [findOne] returns its value as an ISO
    8601 string; [findMany] on the list path returns it as the service
    sent it. *)
Theorem findMany_leaves_dates :
  option_map type (find_column orders_schema "When") = Some DataSourceColumnType.DATE /\
  formatField (base_env (shop 1)) DataSourceColumnType.DATE (VStr "2024-01-15")
    = Ok (VStr "2024-01-15T00:00:00.000Z") /\
  fst (findOne (base_env (shop 1)) 1 (order_by_id (VStr "rec0")) [])
    = Ok (Some [ ("id", VStr "rec0"); ("Name", VStr "order 0");
                 ("When", VStr "2024-01-15T00:00:00.000Z") ]) /\
  option_map fm_data (match fst (findMany (base_env (shop 1)) 2 all_orders []) with
                      | Ok resp => Some resp
                      | _ => None
                      end)
    = Some [ Some [ ("id", VStr "rec0"); ("Name", VStr "order 0");
                    ("When", VStr "2024-01-15") ] ].
Proof. repeat split; vm_compute; reflexivity. Qed.

(** Offset 150 against the stub service: one counting request, two skip
    requests, the real fetch. *)
Lemma findMany_skips_beyond_100_witness :
  exists skips real,
    snd (findMany stub_env 3 (list_orders 150) [])
      = ([count_page None] ++ skips ++ [real])%list /\
    List.length skips = 2%nat.
Proof.
  assert (Hreply : forall t rq, exists r, axios stub_env t rq = Replied r)
    by (intros; eexists; reflexivity).
  assert (Hbig : 100 < 150) by lia.
  assert (Hfuel : (skip_rounds 150 <= 2)%nat) by (vm_compute; lia).
  destruct (findMany_skips_beyond_100 stub_env Hreply 2 (list_orders 150) 150 1 []
              [count_page None] eq_refl eq_refl Hbig eq_refl Hfuel)
    as (filter & skips & cursor & _ & Htrace & Hlen & _).
  exists skips. eexists. split; [exact Htrace | exact Hlen].
Defined.

(** Offset 150 on 250 orders, fields [Name]: the skip pages ask for
    [Name], and the real fetch carries 150 where the cursor of the last
    skip page, [itr200], would go. *)
Lemma findMany_offset_150_requests :
  snd (findMany (base_env (shop 250)) 4 (list_orders 150) [])
    = [ count_page None; count_page (Some (cursor_at 100)); count_page (Some (cursor_at 200));
        skip_page None; skip_page (Some (cursor_at 100));
        real_page (Some (VNum 150)) ] /\
  skip_page None <> listRecords_request "Orders"
                      {| pageSize := 100; fields := []; filterByFormula := EmptyString;
                         sort := Some []; maxRecords := None; offset := None |} /\
  (exists r, axios (base_env (shop 250))
               [ count_page None; count_page (Some (cursor_at 100));
                 count_page (Some (cursor_at 200)); skip_page None ]
               (skip_page (Some (cursor_at 100))) = Replied r /\
             res_offset r = cursor_at 200) /\
  real_page (Some (VNum 150)) <> real_page (Some (cursor_at 200)).
Proof.
  split; [vm_compute; reflexivity|]. split; [discriminate|].
  split; [eexists; split; vm_compute; reflexivity | discriminate].
Qed.

(** ** Relation validation and creation *)

Lemma has_colon_app a b : has_colon (a ++ String ":" b) = true.
Proof. induction a as [|c a IH]; simpl; [reflexivity | rewrite IH; apply orb_true_r]. Qed.

Lemma new_Error_of_not_linked e :
  error_toString (new_Error_of e) <> "Error: Linked record not found".
Proof.
  unfold new_Error_of, error_toString, Error. cbn [err_name err_message].
  intros H. simpl in H. injection H as H.
  apply (f_equal has_colon) in H. rewrite has_colon_app in H. discriminate H.
Qed.

Section Linking.

Variable env : Env.

Lemma getSchema_primary_key target t s t' :
  getSchema env target t = (Ok s, t') -> schema_primary_key s = Some "id".
Proof.
  unfold getSchema, rethrowing, bind, createRequest.
  destruct (axios env t tables_request) as [r| |]; try discriminate.
  destruct (res_tables r) as [tables|]; cbn [throw lift]; try discriminate.
  destruct (getSchema_of tables target) as [s0|e|] eqn:Hs; try discriminate.
  intros H. inversion H; subst. eapply getSchema_of_primary_key; eauto.
Qed.

(** [findOne] by id never answers [undefined]. *)
Lemma findOne_by_id_defined fuel schema v fs t :
  schema_primary_key schema = Some "id" ->
  fst (findOne env fuel
         {| fo_schema := schema;
            fo_where := [where_ "id" WhereOperator.equals v];
            fo_fields := fs |} t) <> Ok None.
Proof.
  intros Hpk.
  assert (Hid : is_primary_key schema (column (where_ "id" WhereOperator.equals v)) = true)
    by (unfold is_primary_key; now rewrite Hpk).
  destruct (truthy v) eqn:Hv.
  - unfold findOne. rewrite (findOne_point_fetch env _ schema _ fs t Hid Hv). cbn [fst].
    destruct (axios env t _) as [r| |]; try discriminate.
    destruct (truthy (res_id r)); [|discriminate].
    destruct (formatOutput env _ _); discriminate.
  - rewrite (findOne_falsy_id env schema _ fuel fs t Hid Hv). discriminate.
Qed.

Lemma check_linked_ids_thrown fuel linkedTable : forall ids t e t',
  check_linked_ids env fuel linkedTable ids t = (Throw e, t') ->
  error_toString e <> "Error: Linked record not found".
Proof.
  induction ids as [|id ids IH]; intros t e t'; cbn [check_linked_ids]; [discriminate|].
  destruct linkedTable as [l|]; [|intros H; inversion H; discriminate].
  unfold bind at 1.
  destruct (getSchema env (rel_table l) t) as [[s|e0|] t0] eqn:Hs.
  - pose proof (getSchema_primary_key _ _ _ _ Hs) as Hpk.
    unfold bind at 1.
    pose proof (findOne_by_id_defined fuel s id None t0 Hpk) as Hdef.
    change (where_ "id" WhereOperator.equals id)
      with {| column := "id"; operator := WhereOperator.equals; where_value := id |} in Hdef.
    destruct (findOne env fuel _ t0) as [[[r|]|e1|] t1] eqn:Hone.
    + apply IH.
    + now cbn [fst] in Hdef.
    + intros H. inversion H; subst.
      unfold findOne, findOne_with in Hone. apply rethrowing_thrown in Hone.
      destruct Hone as [e0 ->]. apply new_Error_of_not_linked.
    + discriminate.
  - intros H. inversion H; subst.
    unfold getSchema in Hs. apply rethrowing_thrown in Hs.
    destruct Hs as [e1 ->]. apply new_Error_of_not_linked.
  - discriminate.
Qed.

Lemma check_relations_thrown fuel schema : forall cols d t e t',
  check_relations env fuel schema cols d t = (Throw e, t') ->
  error_toString e <> "Error: Linked record not found".
Proof.
  induction cols as [|col cols IH]; intros d t e t'; cbn [check_relations]; [discriminate|].
  destruct (foreign_key col && truthy _)%bool; [|apply IH].
  unfold bind.
  destruct (check_linked_ids env fuel _ _ t) as [[u|e0|] t0] eqn:Hc.
  - apply IH.
  - intros H. inversion H; subst. eapply check_linked_ids_thrown; eauto.
  - discriminate.
Qed.

(** Whatever [createOne] throws, it is not the error of the relation
    check, [Linked record not found]. *)
Lemma createOne_never_linked_record_not_found fuel options t :
  fst (createOne env fuel options t) <> Throw (new_Error_of (Error "Linked record not found")).
Proof.
  unfold createOne, rethrowing, bind.
  destruct (check_relations env fuel _ _ _ t) as [[d|e0|] t0] eqn:Hc.
  - unfold createRequest. destruct (axios env t0 _) as [r| |]; cbn [fst throw].
    + destruct (res_records r) as [[|rc recs]|]; cbn [fst throw ret]; discriminate.
    + discriminate.
    + discriminate.
  - cbn [fst]. intros H. inversion H as [H1].
    revert H1. change ("Error: Linked record not found") with
      (error_toString (Error "Linked record not found")).
    fold (error_toString e0). intros H1.
    eapply check_relations_thrown; eauto.
  - discriminate.
Qed.

(** When the relation check fails [createOne] fails with it, and nothing
    sent by then is a write. *)
Lemma createOne_fails_before_write fuel options t e t' :
  check_relations env fuel (co_schema options) (columns (co_schema options))
    (co_data options) t = (Throw e, t') ->
  createOne env fuel options t = (Throw (new_Error_of e), t') /\
  exists l, t' = (t ++ l)%list /\ Forall (fun rq => is_write rq = false) l.
Proof.
  intros Hc. split.
  - unfold createOne. apply rethrowing_throw. now apply bind_throw.
  - destruct (sends_only_check_relations env (fun rq => is_write rq = false)
                (fun _ => eq_refl) (fun _ _ => eq_refl)
                fuel (co_schema options) (columns (co_schema options)) (co_data options) t)
      as (l & Hl & HP).
    rewrite Hc in Hl. now exists l.
Qed.

End Linking.

(** C8.  [createOne] with [CustomerId: 'rec999'], a customer the base does
    not have, fails before any write is sent, and the error is the wrapped
    TypeError of the point fetch, not [Linked record not found]. *)
Theorem createOne_unknown_link :
  createOne (base_env (shop 3)) 1 order_for_rec999 []
    = (Throw (new_Error_of (new_Error_of (TypeError_reading "id"))),
       [ tables_request;
         {| endpoint := "/BaseId/Customers/rec999"; method := GET; data := NoData |} ]) /\
  fst (createOne (base_env (shop 3)) 1 order_for_rec999 [])
    <> Throw (new_Error_of (Error "Linked record not found")) /\
  forallb (fun rq => negb (is_write rq))
    (snd (createOne (base_env (shop 3)) 1 order_for_rec999 [])) = true.
Proof.
  split; [vm_compute; reflexivity|]. split; [vm_compute; discriminate | vm_compute; reflexivity].
Qed.

(** ** Soft deletion *)

Lemma digit_not_T c : is_digit c = true -> Ascii.eqb c "T" = false.
Proof.
  intros H. destruct (Ascii.eqb_spec c "T"%char) as [->|]; [discriminate H | reflexivity].
Qed.

Lemma matches_length p : forall s,
  matches p s = true -> String.length s = String.length p.
Proof.
  induction p as [|a p IH]; destruct s as [|c s]; simpl; try discriminate; [reflexivity|].
  intros H. apply andb_prop in H. f_equal. now apply IH.
Qed.

Lemma timestamp_of_iso s :
  matches iso_pattern s = true ->
  matches timestamp_pattern (replace_char "T" " " (slice_0_19 s)) = true.
Proof.
  unfold iso_pattern, timestamp_pattern, slice_0_19. intros H.
  pose proof (matches_length _ _ H) as Hlen. simpl in Hlen.
  do 24 (destruct s as [|? s]; [discriminate Hlen|]).
  destruct s; [clear Hlen|discriminate Hlen].
  cbn [matches] in H.
  repeat match type of H with
         | (_ && _)%bool = true => apply andb_prop in H; destruct H as [? H]
         end.
  clear H.
  repeat match goal with
         | E : matches_char ?p ?c = true |- _ =>
             first [ change (is_digit c = true) in E
                   | change (Ascii.eqb c p = true) in E; apply Ascii.eqb_eq in E; subst c ]
         end.
  cbn [substring replace_char].
  repeat match goal with
         | D : is_digit ?c = true |- context [Ascii.eqb ?c "T"%char] =>
             rewrite (digit_not_T c D)
         end.
  cbn -[is_digit].
  repeat match goal with
         | D : is_digit ?c = true |- _ => rewrite D; clear D
         end.
  reflexivity.
Qed.

(** The timestamp that [deleteOne] writes is made of the date and of the
    time of day of the instant the clock gives, millisecond and zone
    dropped. *)
Lemma timestamp_is_now s :
  matches iso_pattern s = true ->
  exists date time ms,
    s = date ++ "T" ++ time ++ "." ++ ms ++ "Z" /\
    matches date_pattern date = true /\
    matches time_pattern time = true /\
    replace_char "T" " " (slice_0_19 s) = date ++ " " ++ time.
Proof.
  unfold iso_pattern, date_pattern, time_pattern, slice_0_19. intros H.
  exists (substring 0 10 s), (substring 11 8 s), (substring 20 3 s).
  pose proof (matches_length _ _ H) as Hlen. simpl in Hlen.
  do 24 (destruct s as [|? s]; [discriminate Hlen|]).
  destruct s; [clear Hlen|discriminate Hlen].
  cbn [matches] in H.
  repeat match type of H with
         | (_ && _)%bool = true => apply andb_prop in H; destruct H as [? H]
         end.
  clear H.
  repeat match goal with
         | E : matches_char ?p ?c = true |- _ =>
             first [ change (is_digit c = true) in E
                   | change (Ascii.eqb c p = true) in E; apply Ascii.eqb_eq in E; subst c ]
         end.
  cbn [substring replace_char append].
  repeat match goal with
         | D : is_digit ?c = true |- context [Ascii.eqb ?c "T"%char] =>
             rewrite (digit_not_T c D)
         end.
  cbn -[is_digit].
  repeat match goal with
         | D : is_digit ?c = true |- _ => rewrite D; clear D
         end.
  repeat split.
Qed.

Section Deleting.

Variable env : Env.

Lemma sends_only_updateOne fuel options :
  sends_only not_delete (updateOne env fuel options).
Proof.
  unfold updateOne. apply sends_only_rethrowing, sends_only_bind.
  - apply sends_only_check_relations; intros; discriminate.
  - intros d. apply sends_only_bind.
    + apply sends_only_createRequest. discriminate.
    + intros [r|]; [destruct (negb _)|]; auto with sends.
Qed.

(** [deleteOne] with a soft-delete column is [updateOne] of that column. *)
Lemma deleteOne_delegates fuel options c t :
  softDelete_column options = Some c ->
  let update := {| uo_id := do_id options; uo_schema := do_schema options;
                   uo_data := [(c, VStr (softDelete_timestamp env))] |} in
  deleteOne env fuel options t
    = (deleted_of (fst (updateOne env fuel update t)), snd (updateOne env fuel update t)).
Proof.
  intros Hc update. unfold deleteOne, rethrowing, bind. rewrite Hc. fold update.
  destruct (updateOne env fuel update t) as [[r|e|] t']; cbn [fst snd deleted_of ret];
    try reflexivity.
  destruct (truthy (obj_get "id" r)); reflexivity.
Qed.

(** C9.  For every [deleteOne] call with a soft-delete column configured:
    the call is [updateOne] on the same record with that column set to the
    current time, which has the shape [YYYY-MM-DD HH:mm:ss]; when
    [updateOne] returns a record with an id the result is [{deleted: 1}];
    no request it sends is a DELETE; and the value written is the instant
    the clock gives: with [date], [time] and [ms] the date, the time of
    day and the milliseconds of [new Date().toISOString()], it is [date],
    a space and [time]. *)
Theorem deleteOne_soft_delete fuel options c t :
  softDelete_column options = Some c ->
  matches iso_pattern (now_toISOString env) = true ->
  let update := {| uo_id := do_id options; uo_schema := do_schema options;
                   uo_data := [(c, VStr (softDelete_timestamp env))] |} in
  deleteOne env fuel options t
    = (deleted_of (fst (updateOne env fuel update t)), snd (updateOne env fuel update t)) /\
  matches timestamp_pattern (softDelete_timestamp env) = true /\
  (forall r t', updateOne env fuel update t = (Ok r, t') ->
                truthy (obj_get "id" r) = true ->
                deleteOne env fuel options t = (Ok (Some {| deleted := 1 |}), t')) /\
  (exists l, snd (deleteOne env fuel options t) = (t ++ l)%list /\ Forall not_delete l) /\
  exists date time ms,
    now_toISOString env = date ++ "T" ++ time ++ "." ++ ms ++ "Z" /\
    matches date_pattern date = true /\
    matches time_pattern time = true /\
    softDelete_timestamp env = date ++ " " ++ time /\
    deleteOne env fuel options t
      = (let u := updateOne env fuel
                    {| uo_id := do_id options; uo_schema := do_schema options;
                       uo_data := [(c, VStr (date ++ " " ++ time))] |} t in
         (deleted_of (fst u), snd u)).
Proof.
  intros Hc Hiso update.
  pose proof (deleteOne_delegates fuel options c t Hc) as Hd. cbv zeta in Hd. fold update in Hd.
  split; [exact Hd|]. split; [now apply timestamp_of_iso|]. split; [|split].
  - intros r t' Hu Hid. rewrite Hd, Hu. cbn [fst snd deleted_of]. now rewrite Hid.
  - rewrite Hd. cbn [snd]. apply sends_only_updateOne.
  - destruct (timestamp_is_now _ Hiso) as (date & time & ms & Hnow & Hdate & Htime & Hts).
    exists date, time, ms. fold (softDelete_timestamp env) in Hts.
    repeat (split; [assumption|]). cbv zeta. rewrite <- Hts. exact Hd.
Qed.

End Deleting.

(** Soft deletion of the order [rec1] at 2024-05-06 07:08:09, and again
    with the clock at 2031-12-25 23:59:58. *)
Lemma deleteOne_soft_delete_witness :
  deleteOne (base_env (shop 3)) 1
    {| do_id := "rec1"; do_schema := orders_schema; softDelete := Some "deletedAt" |} []
  = (Ok (Some {| deleted := 1 |}),
     [{| endpoint := "/BaseId/Orders/rec1"; method := PATCH;
         data := UpdateFieldsData [("deletedAt", VStr "2024-05-06 07:08:09")] |}]) /\
  deleteOne (at_time "2031-12-25T23:59:58.007Z" (base_env (shop 3))) 1
    {| do_id := "rec1"; do_schema := orders_schema; softDelete := Some "deletedAt" |} []
  = (Ok (Some {| deleted := 1 |}),
     [{| endpoint := "/BaseId/Orders/rec1"; method := PATCH;
         data := UpdateFieldsData [("deletedAt", VStr "2031-12-25 23:59:58")] |}]).
Proof.
  split.
  - pose proof (deleteOne_soft_delete (base_env (shop 3)) 1
                  {| do_id := "rec1"; do_schema := orders_schema;
                     softDelete := Some "deletedAt" |} "deletedAt" []
                  eq_refl eq_refl) as H.
    cbv zeta in H. destruct H as (_ & _ & H & _).
    apply (H [("id", VStr "rec1"); ("Name", VStr "order 1"); ("When", VStr "2024-01-15");
              ("deletedAt", VStr "2024-05-06 07:08:09")]); reflexivity.
  - pose proof (deleteOne_soft_delete
                  (at_time "2031-12-25T23:59:58.007Z" (base_env (shop 3))) 1
                  {| do_id := "rec1"; do_schema := orders_schema;
                     softDelete := Some "deletedAt" |} "deletedAt" []
                  eq_refl eq_refl) as H.
    cbv zeta in H. destruct H as (_ & _ & H & _).
    apply (H [("id", VStr "rec1"); ("Name", VStr "order 1"); ("When", VStr "2024-01-15");
              ("deletedAt", VStr "2031-12-25 23:59:58")]); reflexivity.
Defined.


(** * Further properties *)

(** ** The connection probe and the catalogue *)

Lemma checkConnection_run env t :
  checkConnection env t =
    (Ok (match axios env t bases_request with
         | NetworkError => false
         | _ => true
         end), (t ++ [bases_request])%list).
Proof.
  unfold checkConnection, try_catch, bind, createRequest.
  destruct (axios env t bases_request); reflexivity.
Qed.

(** X1.  [checkConnection] never throws, and it answers [false] only when
    the HTTP client fails without a response: an HTTP error status, which
    [createRequest] logs and swallows, counts as connected. *)
Theorem checkConnection_answer env t :
  checkConnection env t =
    (Ok (match axios env t bases_request with
         | NetworkError => false
         | _ => true
         end), (t ++ [bases_request])%list).
Proof. apply checkConnection_run. Qed.

Lemma find_app {A} (p : A -> bool) (a b : list A) :
  find p (a ++ b) = match find p a with Some x => Some x | None => find p b end.
Proof. induction a as [|x a IH]; simpl; [reflexivity | destruct (p x); auto]. Qed.

(** The first loop of [getSchema] adds one column per field, in order, and
    one forward relation per link field. *)
Lemma getSchema_fields_result tables target : forall fs cols rels cols' rels',
  getSchema_fields tables target fs cols rels = Ok (cols', rels') ->
  cols' = (cols ++ map column_of_field fs)%list /\
  exists fwd, rels' = (rels ++ fwd)%list /\
    Forall (fun r => org_table r = target /\ rel_column r = "id" /\
                     exists f linked, In f fs /\ org_column r = fld_name f /\
                       In linked tables /\ rel_table r = tbl_name linked /\
                       option_map linkedTableId (fld_options f) = Some (tbl_id linked)) fwd /\
    forall f, In f fs -> AirtableColumnType.is_links (fld_type f) = true ->
              exists r, In r fwd /\ org_column r = fld_name f.
Proof.
  induction fs as [|f fs IH]; intros cols rels cols' rels'; cbn [getSchema_fields].
  - intros H. inversion H; subst. rewrite app_nil_r. split; [reflexivity|].
    exists []. rewrite app_nil_r. repeat split; [constructor | intros f []].
  - unfold bindO at 1.
    destruct (AirtableColumnType.is_links (fld_type f)) eqn:Hl.
    + destruct (fld_options f) as [o|] eqn:Ho; [|discriminate].
      destruct (find _ tables) as [linked|] eqn:Hf; [|discriminate].
      intros H. apply IH in H. destruct H as (-> & fwd & -> & Hfwd & Hall).
      split; [now rewrite <- app_assoc|].
      set (r0 := {| rel_table := tbl_name linked; rel_column := "id";
                    org_table := target; org_column := fld_name f |}).
      exists (r0 :: fwd). rewrite <- app_assoc. split; [reflexivity|]. split.
      * constructor.
        -- split; [reflexivity|]. split; [reflexivity|].
           exists f, linked. apply find_some in Hf. destruct Hf as [Hin Heq].
           apply String.eqb_eq in Heq.
           repeat split; [now left | assumption | now rewrite Ho, Heq].
        -- eapply Forall_impl; [|exact Hfwd].
           intros r (H1 & H2 & f' & l' & Hin & H3). repeat split; try assumption.
           exists f', l'. split; [now right | assumption].
      * intros f' [<-|Hin] Hlinks.
        -- exists r0. split; [now left | reflexivity].
        -- destruct (Hall f' Hin Hlinks) as (r & Hr & Hc). exists r. split; [now right | assumption].
    + intros H. apply IH in H. destruct H as (-> & fwd & -> & Hfwd & Hall).
      split; [now rewrite <- app_assoc|].
      exists fwd. split; [reflexivity|]. split.
      * eapply Forall_impl; [|exact Hfwd].
        intros r (H1 & H2 & f' & l' & Hin & H3). repeat split; try assumption.
        exists f', l'. split; [now right | assumption].
      * intros f' [<-|Hin] Hlinks; [congruence|]. now apply Hall.
Qed.

(** What [getSchema] returns, in terms of the catalogue. *)
Lemma getSchema_of_result tables target s :
  getSchema_of tables target = Ok s ->
  exists tb fwd rev,
    find (fun t => String.eqb (tbl_name t) target) tables = Some tb /\
    table s = target /\
    schema_primary_key s = Some "id" /\
    columns s = id_column :: map column_of_field (tbl_fields tb) /\
    relations s = (fwd ++ rev)%list /\
    Forall (fun r => org_table r = target /\ rel_column r = "id") fwd /\
    (forall f, In f (tbl_fields tb) -> AirtableColumnType.is_links (fld_type f) = true ->
               exists r, In r fwd /\ org_column r = fld_name f).
Proof.
  unfold getSchema_of. destruct (find _ tables) as [tb|] eqn:Hf; [|discriminate].
  destruct (getSchema_fields tables target (tbl_fields tb) [id_column] [])
    as [[cols rels]|e|] eqn:Hfs; try discriminate.
  apply getSchema_fields_result in Hfs. destruct Hfs as (-> & fwd & -> & Hfwd & Hall).
  cbn [bindO fst snd app].
  destruct (getSchema_reverse target tables fwd) as [rels|e|] eqn:Hr; try discriminate.
  apply getSchema_reverse_added in Hr. destruct Hr as (rev & -> & _).
  cbn [bindO]. intros H. inversion H; subst; clear H. cbn.
  exists tb, fwd, rev. repeat split; try reflexivity; try assumption.
  eapply Forall_impl; [|exact Hfwd]. intros r (H1 & H2 & _). now split.
Qed.

Lemma getSchema_run env target t :
  getSchema env target t =
    (match axios env t tables_request with
     | Replied r =>
         match res_tables r with
         | Some tables =>
             match getSchema_of tables target with
             | Ok s => Ok s
             | Throw e => Throw (new_Error_of e)
             | Diverge => Diverge
             end
         | None => Throw (new_Error_of (TypeError_reading "find"))
         end
     | HttpError => Throw (new_Error_of (TypeError_reading "tables"))
     | NetworkError => Throw (new_Error_of (TypeError_reading "data"))
     end, (t ++ [tables_request])%list).
Proof.
  unfold getSchema, rethrowing, bind, createRequest.
  destruct (axios env t tables_request) as [r| |]; try reflexivity.
  destruct (res_tables r) as [tables|]; [|reflexivity].
  unfold lift. destruct (getSchema_of tables target); reflexivity.
Qed.

Lemma listTables_run env t :
  listTables env t =
    (match axios env t tables_request with
     | Replied r =>
         match res_tables r with
         | Some tables => Ok (map tbl_name tables)
         | None => Throw (new_Error_of (TypeError_reading "map"))
         end
     | HttpError => Throw (new_Error_of (TypeError_reading "tables"))
     | NetworkError => Throw (new_Error_of (TypeError_reading "data"))
     end, (t ++ [tables_request])%list).
Proof.
  unfold listTables, rethrowing, bind, createRequest.
  destruct (axios env t tables_request) as [r| |]; try reflexivity.
  destruct (res_tables r) as [tables|]; reflexivity.
Qed.

(** X2.  Every table [getSchema] resolves is one [listTables] lists: when
    [getSchema] returns a schema for a name, the one request it sent, for
    the catalogue, was answered with a list of tables, and [listTables] in
    the same state returns, after the same single request, the names of
    exactly these tables, in the order of the catalogue; the name is among
    them. *)
Theorem getSchema_table_is_listed env target t s t' :
  getSchema env target t = (Ok s, t') ->
  exists r tables,
    axios env t tables_request = Replied r /\
    res_tables r = Some tables /\
    t' = (t ++ [tables_request])%list /\
    listTables env t = (Ok (map tbl_name tables), t') /\
    In target (map tbl_name tables).
Proof.
  rewrite getSchema_run, listTables_run.
  destruct (axios env t tables_request) as [r| |]; try discriminate.
  destruct (res_tables r) as [tables|] eqn:Ht; [|discriminate].
  destruct (getSchema_of tables target) as [s0|e|] eqn:Hs; try discriminate.
  intros H. inversion H; subst.
  exists r, tables. rewrite Ht. repeat (split; [reflexivity|]).
  apply getSchema_of_result in Hs. destruct Hs as (tb & _ & _ & Hf & _).
  apply find_some in Hf. destruct Hf as [Hin Heq]. apply String.eqb_eq in Heq.
  subst target. now apply in_map.
Qed.

(** The catalogue of the shop: [Orders], then [Customers]. *)
Lemma getSchema_table_is_listed_witness :
  listTables (base_env (shop 0)) [] = (Ok ["Orders"; "Customers"], [tables_request]) /\
  In "Orders" ["Orders"; "Customers"].
Proof.
  destruct (getSchema_table_is_listed (base_env (shop 0)) "Orders" [] orders_schema
              [tables_request] eq_refl)
    as (r & tables & Hr & Ht & _ & Hl & Hin).
  vm_compute in Hr. injection Hr as <-.
  vm_compute in Ht. injection Ht as <-.
  split; [exact Hl | exact Hin].
Defined.

(** X3.  [getSchema] for a name the catalogue does not have fails with
    [Table not found], wrapped, after the one catalogue request. *)
Theorem getSchema_unknown_table env target t r tables :
  axios env t tables_request = Replied r ->
  res_tables r = Some tables ->
  ~ In target (map tbl_name tables) ->
  getSchema env target t
    = (Throw (new_Error_of (Error "Table not found")), (t ++ [tables_request])%list).
Proof.
  intros Hr Ht Hnot. rewrite getSchema_run, Hr, Ht.
  unfold getSchema_of.
  destruct (find _ tables) as [tb|] eqn:Hf; [|reflexivity].
  exfalso. apply Hnot. apply find_some in Hf. destruct Hf as [Hin Heq].
  apply String.eqb_eq in Heq. subst target. now apply in_map.
Qed.

Lemma getSchema_unknown_table_witness :
  getSchema (base_env (shop 0)) "Invoices" []
    = (Throw (Error "Error: Table not found"), [tables_request]).
Proof.
  apply (getSchema_unknown_table (base_env (shop 0)) "Invoices" []
           {| res_id := VUndefined; res_fields := []; res_records := None;
              res_offset := VUndefined; res_tables := Some catalogue |} catalogue);
    [reflexivity | reflexivity |].
  intros [H|[H|[]]]; discriminate H.
Defined.

(** X4.  The columns of a schema [getSchema] returns are the synthesized
    [id] column followed by one column per native field of the table, in
    the order of the fields, each with the name of its field and the type
    [fieldMapper] gives it. *)
Theorem getSchema_columns env target t s t' :
  getSchema env target t = (Ok s, t') ->
  exists r tables tb,
    axios env t tables_request = Replied r /\ res_tables r = Some tables /\
    find (fun x => String.eqb (tbl_name x) target) tables = Some tb /\
    table s = target /\
    columns s = id_column :: map column_of_field (tbl_fields tb) /\
    map field (columns s) = "id" :: map fld_name (tbl_fields tb) /\
    map type (columns s)
      = DataSourceColumnType.STRING :: map (fun f => fieldMapper (fld_type f)) (tbl_fields tb).
Proof.
  rewrite getSchema_run.
  destruct (axios env t tables_request) as [r| |] eqn:Hr; try discriminate.
  destruct (res_tables r) as [tables|] eqn:Ht; [|discriminate].
  destruct (getSchema_of tables target) as [s0|e|] eqn:Hs; try discriminate.
  intros H. inversion H; subst.
  apply getSchema_of_result in Hs. destruct Hs as (tb & fwd & rev & Hf & Htab & _ & Hcols & _).
  exists r, tables, tb. repeat split; try assumption; try reflexivity.
  - rewrite Hcols. cbn [map field id_column]. now rewrite map_map.
  - rewrite Hcols. cbn [map type id_column]. now rewrite map_map.
Qed.

Lemma getSchema_columns_witness :
  exists r tables tb,
    axios (base_env (shop 0)) [] tables_request = Replied r /\ res_tables r = Some tables /\
    find (fun x => String.eqb (tbl_name x) "Orders") tables = Some tb /\
    table orders_schema = "Orders" /\
    columns orders_schema = id_column :: map column_of_field (tbl_fields tb) /\
    map field (columns orders_schema) = "id" :: map fld_name (tbl_fields tb) /\
    map type (columns orders_schema)
      = DataSourceColumnType.STRING :: map (fun f => fieldMapper (fld_type f)) (tbl_fields tb).
Proof.
  apply (getSchema_columns (base_env (shop 0)) "Orders" [] orders_schema [tables_request]).
  reflexivity.
Defined.

(** X5.  In a schema [getSchema] returns exactly one column is a primary
    key, the synthesized [id] column, and [primary_key] names it. *)
Theorem getSchema_one_primary_key env target t s t' :
  getSchema env target t = (Ok s, t') ->
  filter primary_key (columns s) = [id_column] /\
  schema_primary_key s = Some (field id_column).
Proof.
  rewrite getSchema_run.
  destruct (axios env t tables_request) as [r| |] eqn:Hr; try discriminate.
  destruct (res_tables r) as [tables|] eqn:Ht; [|discriminate].
  destruct (getSchema_of tables target) as [s0|e|] eqn:Hs; try discriminate.
  intros H. inversion H; subst.
  apply getSchema_of_result in Hs. destruct Hs as (tb & fwd & rev & _ & _ & Hpk & Hcols & _).
  split; [|exact Hpk].
  rewrite Hcols. clear Hcols. cbn [filter id_column primary_key]. f_equal.
  induction (tbl_fields tb) as [|f fs IH]; [reflexivity | exact IH].
Qed.

Lemma getSchema_one_primary_key_witness :
  filter primary_key (columns orders_schema) = [id_column] /\
  schema_primary_key orders_schema = Some (field id_column).
Proof.
  apply (getSchema_one_primary_key (base_env (shop 0)) "Orders" [] orders_schema
           [tables_request]).
  reflexivity.
Defined.

(** X6.  In a schema [getSchema] returns, the relation that [createOne]
    and [updateOne] look up for a foreign-key column is always there, and
    it is the forward relation of that column: from the schema's table to
    the [id] of the linked table. *)
Theorem getSchema_foreign_key_relation env target t s t' col :
  getSchema env target t = (Ok s, t') ->
  In col (columns s) ->
  foreign_key col = true ->
  exists rel,
    find (fun x => String.eqb (org_column x) (field col)) (relations s) = Some rel /\
    org_table rel = target /\ org_column rel = field col /\ rel_column rel = "id".
Proof.
  rewrite getSchema_run.
  destruct (axios env t tables_request) as [r| |] eqn:Hr; try discriminate.
  destruct (res_tables r) as [tables|] eqn:Ht; [|discriminate].
  destruct (getSchema_of tables target) as [s0|e|] eqn:Hs; try discriminate.
  intros H Hin Hfk. inversion H; subst.
  apply getSchema_of_result in Hs.
  destruct Hs as (tb & fwd & rev & _ & _ & _ & Hcols & Hrels & Hfwd & Hall).
  rewrite Hcols in Hin. destruct Hin as [<-|Hin]; [discriminate Hfk|].
  apply in_map_iff in Hin. destruct Hin as (f & <- & Hf).
  cbn [column_of_field foreign_key field] in *.
  destruct (Hall f Hf Hfk) as (r0 & Hr0 & Hc0).
  rewrite Hrels, find_app.
  destruct (find (fun x => String.eqb (org_column x) (fld_name f)) fwd) as [rel|] eqn:Hfind.
  - exists rel. apply find_some in Hfind. destruct Hfind as [Hrel Heq].
    apply String.eqb_eq in Heq.
    rewrite Forall_forall in Hfwd. destruct (Hfwd rel Hrel) as [H1 H2].
    repeat split; assumption.
  - exfalso. eapply find_none in Hfind; [|exact Hr0].
    rewrite Hc0, String.eqb_refl in Hfind. discriminate.
Qed.

Lemma getSchema_foreign_key_relation_witness :
  exists rel,
    find (fun x => String.eqb (org_column x) "CustomerId") (relations orders_schema)
      = Some rel /\
    org_table rel = "Orders" /\ org_column rel = "CustomerId" /\ rel_column rel = "id".
Proof.
  apply (getSchema_foreign_key_relation (base_env (shop 0)) "Orders" [] orders_schema
           [tables_request] (column_of_field (link_field "CustomerId" "tblCustomers")));
    [reflexivity | right; right; left; reflexivity | reflexivity].
Defined.

(** X7.  Mapping a canonical type to a native type with [fieldMapperRev]
    and back with [fieldMapper] gives the type again for STRING, NUMBER,
    BOOLEAN, DATE and ENUM; JSON and UNKNOWN come back as STRING. *)
Theorem fieldMapper_fieldMapperRev t :
  fieldMapper (fieldMapperRev t) =
    match t with
    | DataSourceColumnType.JSON | DataSourceColumnType.UNKNOWN => DataSourceColumnType.STRING
    | _ => t
    end.
Proof. destruct t; reflexivity. Qed.

(** ** The record mapper *)

Lemma obj_get_set k k' v o :
  obj_get k (obj_set k' v o) = if String.eqb k' k then v else obj_get k o.
Proof.
  induction o as [|[k0 v0] o IH]; cbn [obj_set obj_get].
  - reflexivity.
  - destruct (String.eqb_spec k0 k') as [->|Hne]; cbn [obj_get].
    + destruct (String.eqb k' k); reflexivity.
    + rewrite IH. destruct (String.eqb_spec k0 k) as [->|Hne2]; [|reflexivity].
      destruct (String.eqb_spec k' k) as [->|]; [contradiction | reflexivity].
Qed.

Lemma obj_get_absent k o : ~ In k (map fst o) -> obj_get k o = VUndefined.
Proof.
  induction o as [|[k0 v0] o IH]; cbn [obj_get map fst]; [reflexivity|].
  intros H. destruct (String.eqb_spec k0 k) as [->|]; [exfalso; apply H; now left|].
  apply IH. intros Hin. apply H. now right.
Qed.

Lemma obj_get_spread k : forall more o,
  NoDup (map fst more) ->
  obj_get k (obj_spread o more)
    = if existsb (String.eqb k) (map fst more) then obj_get k more else obj_get k o.
Proof.
  unfold obj_spread.
  induction more as [|[k1 v1] more IH]; intros o Hnd; cbn [fold_left map fst existsb obj_get].
  - reflexivity.
  - inversion Hnd as [|? ? Hnot Hnd']; subst. cbn [fst snd].
    rewrite IH by assumption. rewrite obj_get_set.
    rewrite (String.eqb_sym k k1).
    destruct (String.eqb_spec k1 k) as [->|Hne]; cbn [orb].
    + replace (existsb (String.eqb k) (map fst more)) with false; [reflexivity|].
      symmetry. apply not_true_is_false. intros H. apply existsb_exists in H.
      destruct H as (x & Hx & Heq). apply String.eqb_eq in Heq. now subst x.
    + reflexivity.
Qed.

(** X8.  A flattened record holds every field of the native record under
    the name of the field; the record id is under [id] unless a field is
    itself named [id], whose value then takes its place. *)
Theorem flat_record_properties i fs :
  NoDup (map fst fs) ->
  (forall k, In k (map fst fs) -> obj_get k (flat_record i fs) = obj_get k fs) /\
  (~ In "id" (map fst fs) -> obj_get "id" (flat_record i fs) = i).
Proof.
  intros Hnd. unfold flat_record. split.
  - intros k Hin. rewrite obj_get_spread by assumption.
    replace (existsb (String.eqb k) (map fst fs)) with true; [reflexivity|].
    symmetry. apply existsb_exists. exists k. split; [assumption | apply String.eqb_refl].
  - intros Hnot. rewrite obj_get_spread by assumption.
    replace (existsb (String.eqb "id") (map fst fs)) with false; [reflexivity|].
    symmetry. apply not_true_is_false. intros H. apply existsb_exists in H.
    destruct H as (x & Hx & Heq). apply String.eqb_eq in Heq. now subst x.
Qed.

Lemma flat_record_properties_witness :
  (forall k, In k ["id"; "Name"] ->
     obj_get k (flat_record (VStr "rec1") [("id", VNum 7); ("Name", VStr "a")])
       = obj_get k [("id", VNum 7); ("Name", VStr "a")]) /\
  (~ In "id" ["id"; "Name"] ->
     obj_get "id" (flat_record (VStr "rec1") [("id", VNum 7); ("Name", VStr "a")])
       = VStr "rec1").
Proof.
  apply (flat_record_properties (VStr "rec1") [("id", VNum 7); ("Name", VStr "a")]).
  repeat constructor; simpl; intuition discriminate.
Defined.

Section Mapping.

Variable env : Env.

Lemma formatField_formatted schema k v v' :
  (match find_column schema k with
   | None => Ok v
   | Some col => formatField env (type col) v
   end) = Ok v' ->
  formatted env schema k v v'.
Proof.
  unfold formatted. destruct (find_column schema k) as [col|]; [|now intros [= <-]].
  unfold formatField.
  destruct (type col); destruct v; cbn beta iota;
    try (intros [= <-]; reflexivity);
    try (intros [= <-]; left; split; reflexivity);
    destruct (date_toISOString env _) as [iso|] eqn:Hs; try discriminate;
    intros [= <-]; right; (split; [discriminate | eauto]).
Qed.

Lemma formatOutput_fields_ok schema : forall o out,
  formatOutput_fields env schema o = Ok out ->
  Forall2 (fun kv kv' => fst kv' = fst kv /\
                         formatted env schema (fst kv) (snd kv) (snd kv')) o out.
Proof.
  induction o as [|[k v] o IH]; intros out; cbn [formatOutput_fields].
  - intros [= <-]. constructor.
  - unfold bindO at 1.
    destruct (match find_column schema k with None => _ | Some _ => _ end) as [v'|e|] eqn:Hv;
      try discriminate.
    unfold bindO at 1.
    destruct (formatOutput_fields env schema o) as [rest|e|]; try discriminate.
    intros [= <-]. constructor; [|now apply IH].
    split; [reflexivity|]. now apply formatField_formatted.
Qed.

Lemma map_fst_filter (p : string -> bool) (o : object) :
  map fst (filter (fun kv => p (fst kv)) o) = filter p (map fst o).
Proof.
  induction o as [|[k v] o IH]; cbn [filter map fst]; [reflexivity|].
  destruct (p k); cbn [map fst]; now rewrite IH.
Qed.

Lemma formatOutput_kept options o :
  formatOutput env options o
    = formatOutput_fields env (fo_schema options)
        (filter (fun kv => kept_key (fo_fields options) (fst kv)) o).
Proof.
  unfold formatOutput, kept_key. destruct (fo_fields options) as [[|f r]|]; try reflexivity.
  - f_equal. induction o as [|kv o IH]; [reflexivity | cbn [filter]; now rewrite <- IH].
  - f_equal. induction o as [|kv o IH]; [reflexivity | cbn [filter]; now rewrite <- IH].
Qed.

(** X9.  The field allowlist of [formatOutput]: when fields are requested
    the keys of the result are the keys of the record that are [id] or
    requested, in their order, and otherwise all its keys. *)
Theorem formatOutput_keys options o out :
  formatOutput env options o = Ok out ->
  map fst out = filter (kept_key (fo_fields options)) (map fst o).
Proof.
  rewrite formatOutput_kept. intros H. apply formatOutput_fields_ok in H.
  rewrite <- map_fst_filter.
  induction H as [|kv kv' o' out' [Hk _] _ IH]; [reflexivity|].
  cbn [map]. now rewrite Hk, IH.
Qed.

(** X10.  What a point fetch of [findOne] returns: for every property of
    the result there is the property of that name in the fetched record,
    flattened, and its value is that value, except that under a DATE column
    a value other than [null] is the ISO 8601 string [Date] makes of it. *)
Theorem findOne_values fuel schema w fs t out t' :
  is_primary_key schema (column w) = true ->
  truthy (where_value w) = true ->
  findOne env fuel {| fo_schema := schema; fo_where := [w]; fo_fields := fs |} t
    = (Ok (Some out), t') ->
  exists r,
    axios env t (point_fetch schema (where_value w)) = Replied r /\
    forall k v', In (k, v') out ->
      exists v, In (k, v) (flat_record (res_id r) (res_fields r)) /\
                formatted env schema k v v'.
Proof.
  intros Hpk Hv. unfold findOne.
  rewrite (findOne_point_fetch env (findMany env fuel) schema w fs t Hpk Hv).
  destruct (axios env t _) as [r| |]; try discriminate.
  destruct (truthy (res_id r)); [|discriminate].
  destruct (formatOutput env _ _) as [out0|e|] eqn:Hout; try discriminate.
  intros [= <- <-]. exists r. split; [reflexivity|].
  rewrite formatOutput_kept in Hout. apply formatOutput_fields_ok in Hout.
  cbn [fo_schema fo_fields] in Hout.
  intros k v' Hin.
  assert (Hex : exists kv, In kv (filter (fun kv => kept_key fs (fst kv))
                                     (flat_record (res_id r) (res_fields r))) /\
                           fst (k, v') = fst kv /\
                           formatted env schema (fst kv) (snd kv) (snd (k, v'))).
  { revert Hin. induction Hout as [|kv kv' o' out' HR _ IH]; [intros []|].
    intros [<-|Hin].
    - exists kv. split; [now left | exact HR].
    - destruct (IH Hin) as (kv0 & H0 & H1). exists kv0. split; [now right | exact H1]. }
  destruct Hex as ([k0 v0] & Hin0 & Hk & Hf). cbn [fst snd] in *. subst k0.
  exists v0. split; [|exact Hf]. apply filter_In in Hin0. exact (proj1 Hin0).
Qed.

Lemma formatField_throws ty v e :
  formatField env ty v = Throw e -> e = RangeError "Invalid time value".
Proof.
  unfold formatField. destruct v, ty; try discriminate;
    destruct (date_toISOString env _); try discriminate; now intros [= <-].
Qed.

Lemma formatField_never_diverges ty v : formatField env ty v <> Diverge.
Proof.
  unfold formatField. destruct v, ty; try discriminate;
    destruct (date_toISOString env _); discriminate.
Qed.

Lemma formatOutput_fields_invalid_date schema k v col : forall o,
  In (k, v) o ->
  find_column schema k = Some col ->
  type col = DataSourceColumnType.DATE ->
  v <> VNull ->
  date_toISOString env v = None ->
  formatOutput_fields env schema o = Throw (RangeError "Invalid time value").
Proof.
  intros o Hin Hc Hty Hv Hd.
  induction o as [|[k0 v0] o IH]; [destruct Hin|].
  cbn [formatOutput_fields]. unfold bindO at 1.
  destruct (match find_column schema k0 with None => _ | Some _ => _ end) as [v'|e|] eqn:Hh.
  - destruct Hin as [Heq|Hin].
    + inversion Heq; subst. rewrite Hc, Hty in Hh. unfold formatField in Hh.
      destruct v; try contradiction; rewrite Hd in Hh; discriminate.
    + rewrite (IH Hin). reflexivity.
  - destruct (find_column schema k0) as [c0|]; [|discriminate].
    apply formatField_throws in Hh. now subst.
  - destruct (find_column schema k0) as [c0|]; [|discriminate].
    now apply formatField_never_diverges in Hh.
Qed.

(** X11.  A point fetch of [findOne] fails with a RangeError, wrapped,
    when a property the result would keep is under a DATE column and has a
    value, not [null], that [Date] cannot read. *)
Theorem findOne_invalid_date fuel schema w fs t r k v col :
  is_primary_key schema (column w) = true ->
  truthy (where_value w) = true ->
  axios env t (point_fetch schema (where_value w)) = Replied r ->
  truthy (res_id r) = true ->
  In (k, v) (flat_record (res_id r) (res_fields r)) ->
  kept_key fs k = true ->
  find_column schema k = Some col ->
  type col = DataSourceColumnType.DATE ->
  v <> VNull ->
  date_toISOString env v = None ->
  findOne env fuel {| fo_schema := schema; fo_where := [w]; fo_fields := fs |} t
    = (Throw (new_Error_of (RangeError "Invalid time value")),
       (t ++ [point_fetch schema (where_value w)])%list).
Proof.
  intros Hpk Hv Hr Hid Hin Hkept Hc Hty Hnull Hd. unfold findOne.
  rewrite (findOne_point_fetch env (findMany env fuel) schema w fs t Hpk Hv), Hr, Hid.
  rewrite formatOutput_kept. cbn [fo_schema fo_fields].
  rewrite (formatOutput_fields_invalid_date schema k v col); try assumption; [reflexivity|].
  apply filter_In. split; [assumption | exact Hkept].
Qed.

End Mapping.

Lemma formatOutput_keys_witness :
  map fst [ ("id", VStr "rec1"); ("Name", VStr "order 1") ]
    = filter (kept_key (Some ["Name"])) (map fst (flat_record (VStr "rec1") (rec_fields (order 1)))).
Proof.
  apply (formatOutput_keys (base_env (shop 3))
           {| fo_schema := orders_schema; fo_where := []; fo_fields := Some ["Name"] |}
           (flat_record (VStr "rec1") (rec_fields (order 1)))
           [ ("id", VStr "rec1"); ("Name", VStr "order 1") ]).
  reflexivity.
Defined.

Lemma findOne_values_witness :
  exists r,
    axios (base_env (shop 3)) [] (point_fetch orders_schema (VStr "rec1")) = Replied r /\
    forall k v', In (k, v') [ ("id", VStr "rec1"); ("Name", VStr "order 1");
                              ("When", VStr "2024-01-15T00:00:00.000Z") ] ->
      exists v, In (k, v) (flat_record (res_id r) (res_fields r)) /\
                formatted (base_env (shop 3)) orders_schema k v v'.
Proof.
  apply (findOne_values (base_env (shop 3)) 1 orders_schema (where_ "id" WhereOperator.equals (VStr "rec1"))
           None [] _ [point_fetch orders_schema (VStr "rec1")]); reflexivity.
Defined.

Lemma findOne_invalid_date_witness :
  findOne (base_env undated_shop) 1
    {| fo_schema := orders_schema;
       fo_where := [where_ "id" WhereOperator.equals (VStr "recX")];
       fo_fields := None |} []
  = (Throw (Error "RangeError: Invalid time value"),
     [point_fetch orders_schema (VStr "recX")]).
Proof.
  apply (findOne_invalid_date (base_env undated_shop) 1 orders_schema
           (where_ "id" WhereOperator.equals (VStr "recX")) None []
           {| res_id := VStr "recX";
              res_fields := [ ("Name", VStr "order X"); ("When", VStr "soon") ];
              res_records := None; res_offset := VUndefined; res_tables := None |}
           "When" (VStr "soon")
           (column_of_field {| fld_name := "When"; fld_type := AirtableColumnType.DATE;
                               fld_options := None |}));
    try reflexivity.
  - right; right; left; reflexivity.
  - discriminate.
Defined.

(** ** Counting and paging, further *)

Lemma rethrowing_fst_diverge {A} (m : M A) t :
  fst (m t) = Diverge -> fst (rethrowing m t) = Diverge.
Proof. unfold rethrowing. destruct (m t) as [[a|e|] t']; cbn; congruence. Qed.

Section MorePaging.

Variable env : Env.

Lemma findTotalRecords_run fuel schema ws t filter :
  fst (whereToFilter ws schema) = Ok filter ->
  findTotalRecords env fuel schema ws t
    = rethrowing (findTotalRecords_loop env fuel (table schema) filter VUndefined 0) t.
Proof.
  intros Hf. unfold findTotalRecords. rewrite Hf. reflexivity.
Qed.

(** X12.  When the first page of matching records is short, fewer than
    100 records or none, [findTotalRecords] returns the number of records
    on it after that one request. *)
Theorem findTotalRecords_short_first_page fuel schema ws t filter r :
  fst (whereToFilter ws schema) = Ok filter ->
  axios env t (first_count_request (table schema) filter) = Replied r ->
  (forall recs, res_records r = Some recs -> Z.of_nat (List.length recs) < 100) ->
  findTotalRecords env (S fuel) schema ws t
    = (Ok (match res_records r with
           | Some recs => Z.of_nat (List.length recs)
           | None => 0
           end),
       (t ++ [first_count_request (table schema) filter])%list).
Proof.
  intros Hf Hr Hshort. rewrite (findTotalRecords_run _ _ _ _ _ Hf).
  unfold rethrowing. cbn [findTotalRecords_loop prune].
  fold (first_count_request (table schema) filter).
  unfold bind, createRequest. rewrite Hr.
  destruct (res_records r) as [[|rc recs]|] eqn:Hrecs; try reflexivity.
  specialize (Hshort _ eq_refl).
  replace (Z.of_nat (List.length (rc :: recs)) <? 100) with true
    by (symmetry; apply Z.ltb_lt; exact Hshort).
  reflexivity.
Qed.

Lemma findTotalRecords_loop_stuck tbl filter r recs :
  (forall t, axios env t (first_count_request tbl filter) = Replied r) ->
  res_records r = Some recs ->
  100 <= Z.of_nat (List.length recs) ->
  prune (res_offset r) = None ->
  forall fuel cursor total t,
    prune cursor = None ->
    fst (findTotalRecords_loop env fuel tbl filter cursor total t) = Diverge.
Proof.
  intros Hr Hrecs Hfull Hcur.
  induction fuel as [|fuel IH]; intros cursor total t Hc; [reflexivity|].
  cbn [findTotalRecords_loop]. rewrite Hc. fold (first_count_request tbl filter).
  unfold bind, createRequest. rewrite Hr, Hrecs.
  destruct recs as [|rc recs]; [simpl in Hfull; lia|].
  replace (Z.of_nat (List.length (rc :: recs)) <? 100) with false
    by (symmetry; apply Z.ltb_ge; exact Hfull).
  now apply IH.
Qed.

(** X13.  [findTotalRecords] never returns when the first page of
    matching records is full and is also the last: the answer carries no
    cursor, the next request is the first one again, and so on. *)
Theorem findTotalRecords_full_last_page schema ws filter r recs :
  fst (whereToFilter ws schema) = Ok filter ->
  (forall t, axios env t (first_count_request (table schema) filter) = Replied r) ->
  res_records r = Some recs ->
  100 <= Z.of_nat (List.length recs) ->
  prune (res_offset r) = None ->
  forall fuel t, fst (findTotalRecords env fuel schema ws t) = Diverge.
Proof.
  intros Hf Hr Hrecs Hfull Hcur fuel t.
  rewrite (findTotalRecords_run _ _ _ _ _ Hf).
  apply rethrowing_fst_diverge.
  eapply findTotalRecords_loop_stuck; eauto.
Qed.

End MorePaging.

Lemma findTotalRecords_short_first_page_witness :
  findTotalRecords (base_env (shop 3)) 1 orders_schema [] []
    = (Ok 3, [first_count_request "Orders" EmptyString]).
Proof.
  apply (findTotalRecords_short_first_page (base_env (shop 3)) 0 orders_schema [] []
           EmptyString
           {| res_id := VUndefined; res_fields := [];
              res_records := Some (map order (seq 0 3)); res_offset := VUndefined;
              res_tables := None |});
    [reflexivity | reflexivity |].
  intros recs [= <-]. vm_compute. reflexivity.
Defined.

Lemma findTotalRecords_full_last_page_witness :
  fst (findTotalRecords (base_env (shop 100)) 7 orders_schema [] []) = Diverge.
Proof.
  assert (Hfull : 100 <= Z.of_nat (List.length (map order (seq 0 100))))
    by (vm_compute; discriminate).
  assert (Hfirst : forall t, axios (base_env (shop 100)) t
                               (first_count_request (table orders_schema) EmptyString)
                             = Replied full_last_page)
    by (intros t; vm_compute; reflexivity).
  exact (findTotalRecords_full_last_page (base_env (shop 100)) orders_schema []
           EmptyString full_last_page (map order (seq 0 100))
           eq_refl Hfirst eq_refl Hfull eq_refl 7%nat []).
Defined.

Section ListPath.

Variable env : Env.

(** [findMany] off the short circuit: the count, then the page. *)
Lemma findMany_list_path fuel options t :
  single_primary_key_predicate (opt_schema options) (opt_where options) = false ->
  findMany env (S fuel) options t =
    match findTotalRecords env fuel (opt_schema options) (opt_where options) t with
    | (Ok total, t1) => rethrowing (findMany_page env fuel options total) t1
    | (Throw e, t1) => (Throw e, t1)
    | (Diverge, t1) => (Diverge, t1)
    end.
Proof.
  intros H. cbn [findMany]. rewrite H. unfold bind.
  destruct (findTotalRecords env fuel _ _ t) as [[total|e|] t1]; reflexivity.
Qed.

(** The page of [findMany], given the filter and how the cursor is
    found. *)
Lemma findMany_page_run fuel options total t filter :
  fst (whereToFilter (opt_where options) (opt_schema options)) = Ok filter ->
  findMany_page env fuel options total t =
    bind
      (match opt_offset options with
       | None => ret VUndefined
       | Some off =>
           if off =? 0 then ret VUndefined
           else if 100 <? off then
             bind (findMany_skip env fuel (table (opt_schema options))
                     (fields_or_columns (opt_fields options) (opt_schema options))
                     filter (sort_specs (opt_sort options)) off 0 VNull)
                  (fun _ => ret (VNum off))
           else
             bind (createRequest env (position_request options filter off))
                  (fun result =>
                     match result with
                     | None => throw (TypeError_reading "offset")
                     | Some r => ret (res_offset r)
                     end)
       end)
      (fun cursor =>
         bind (createRequest env (real_fetch env options filter (prune cursor)))
              (fun result =>
                 match result with
                 | None => throw (TypeError_reading "records")
                 | Some r =>
                     match res_records r with
                     | None => throw (TypeError_reading "map")
                     | Some recs =>
                         ret {| fm_limit := Some (effective_limit env (opt_limit options));
                                fm_offset := opt_offset options;
                                fm_total := total;
                                fm_pagination_total := Z.of_nat (List.length (flat_records recs));
                                fm_page := page_tokens env
                                             (Some (effective_limit env (opt_limit options)))
                                             (opt_offset options) total;
                                fm_data := flat_records recs |}
                     end
                 end)) t.
Proof.
  intros Hf. unfold findMany_page.
  destruct (whereToFilter_again (opt_schema options) (opt_where options)) as [Hagain _].
  cbv zeta in Hagain. rewrite Hagain, Hf. cbn [fst].
  reflexivity.
Qed.

Lemma findMany_first_page_run fuel options t total t1 filter :
  single_primary_key_predicate (opt_schema options) (opt_where options) = false ->
  falsy_number (opt_offset options) = true ->
  findTotalRecords env fuel (opt_schema options) (opt_where options) t = (Ok total, t1) ->
  fst (whereToFilter (opt_where options) (opt_schema options)) = Ok filter ->
  findMany env (S fuel) options t =
    (match axios env t1 (real_fetch env options filter None) with
     | Replied r =>
         match res_records r with
         | Some recs =>
             Ok {| fm_limit := Some (effective_limit env (opt_limit options));
                   fm_offset := opt_offset options;
                   fm_total := total;
                   fm_pagination_total := Z.of_nat (List.length recs);
                   fm_page := page_tokens env
                                (Some (effective_limit env (opt_limit options)))
                                (opt_offset options) total;
                   fm_data := flat_records recs |}
         | None => Throw (new_Error_of (TypeError_reading "map"))
         end
     | HttpError => Throw (new_Error_of (TypeError_reading "records"))
     | NetworkError => Throw (new_Error_of (TypeError_reading "data"))
     end, (t1 ++ [real_fetch env options filter None])%list).
Proof.
  intros Hnot Hoff Htotal Hf.
  rewrite (findMany_list_path _ _ _ Hnot), Htotal.
  unfold rethrowing. rewrite (findMany_page_run _ _ _ _ _ Hf).
  assert (Hcur : (match opt_offset options with
                  | None => ret VUndefined
                  | Some off =>
                      if off =? 0 then ret VUndefined
                      else if 100 <? off then
                        bind (findMany_skip env fuel (table (opt_schema options))
                                (fields_or_columns (opt_fields options) (opt_schema options))
                                filter (sort_specs (opt_sort options)) off 0 VNull)
                             (fun _ => ret (VNum off))
                      else
                        bind (createRequest env (position_request options filter off))
                             (fun result =>
                                match result with
                                | None => throw (TypeError_reading "offset")
                                | Some r => ret (res_offset r)
                                end)
                  end) = ret VUndefined).
  { unfold falsy_number in Hoff. destruct (opt_offset options) as [off|]; [|reflexivity].
    now rewrite Hoff. }
  rewrite Hcur. unfold bind at 1. unfold ret at 1. cbn [prune].
  unfold bind, createRequest.
  destruct (axios env t1 _) as [r| |]; try reflexivity.
  destruct (res_records r) as [recs|]; [|reflexivity].
  unfold ret, flat_records. now rewrite length_map.
Qed.

(** X14.  [findMany] without an offset, off the short circuit: after the
    count one request is sent, the real fetch without a cursor, and when
    it is answered with records the result holds them flattened, the
    counted total, the number of records on the page as pagination total,
    and as limit the requested one or, when none or 0 is requested, the
    configured default or 20. *)
Theorem findMany_without_offset fuel options t total t1 filter r recs :
  single_primary_key_predicate (opt_schema options) (opt_where options) = false ->
  falsy_number (opt_offset options) = true ->
  findTotalRecords env fuel (opt_schema options) (opt_where options) t = (Ok total, t1) ->
  fst (whereToFilter (opt_where options) (opt_schema options)) = Ok filter ->
  axios env t1 (real_fetch env options filter None) = Replied r ->
  res_records r = Some recs ->
  findMany env (S fuel) options t =
    (Ok {| fm_limit := Some (effective_limit env (opt_limit options));
           fm_offset := opt_offset options;
           fm_total := total;
           fm_pagination_total := Z.of_nat (List.length recs);
           fm_page := page_tokens env (Some (effective_limit env (opt_limit options)))
                        (opt_offset options) total;
           fm_data := flat_records recs |},
     (t1 ++ [real_fetch env options filter None])%list) /\
  effective_limit env (opt_limit options) =
    (if falsy_number (opt_limit options)
     then match database_defaults_limit env with Some d => d | None => 20 end
     else match opt_limit options with Some l => l | None => 0 end).
Proof.
  intros Hnot Hoff Htotal Hf Hr Hrecs. split.
  - rewrite (findMany_first_page_run _ _ _ _ _ _ Hnot Hoff Htotal Hf), Hr, Hrecs.
    reflexivity.
  - unfold effective_limit, falsy_number. destruct (opt_limit options) as [l|]; [|reflexivity].
    destruct (l =? 0); reflexivity.
Qed.

(** X15.  [findMany] with an offset of at most 100, off the short
    circuit: after the count a request for a page of [offset] records is
    sent, with the fields, filter and sort of the real fetch, and when it
    is answered the real fetch follows with the cursor of that answer. *)
Theorem findMany_offset_up_to_100 fuel options off t total t1 filter r :
  single_primary_key_predicate (opt_schema options) (opt_where options) = false ->
  opt_offset options = Some off ->
  off <> 0 ->
  off <= 100 ->
  findTotalRecords env fuel (opt_schema options) (opt_where options) t = (Ok total, t1) ->
  fst (whereToFilter (opt_where options) (opt_schema options)) = Ok filter ->
  axios env t1 (position_request options filter off) = Replied r ->
  snd (findMany env (S fuel) options t)
    = (t1 ++ [ position_request options filter off;
               real_fetch env options filter (prune (res_offset r)) ])%list.
Proof.
  intros Hnot Hoff Hnz Hle Htotal Hf Hr.
  rewrite (findMany_list_path _ _ _ Hnot), Htotal, rethrowing_snd.
  rewrite (findMany_page_run _ _ _ _ _ Hf), Hoff.
  replace (off =? 0) with false by (symmetry; apply Z.eqb_neq; exact Hnz).
  replace (100 <? off) with false by (symmetry; apply Z.ltb_ge; exact Hle).
  unfold bind at 1. unfold bind at 1. unfold createRequest at 1. rewrite Hr.
  unfold ret at 1. unfold bind, createRequest.
  destruct (axios env _ (real_fetch env options filter (prune (res_offset r)))) as [r2| |];
    [destruct (res_records r2)| |]; cbn [snd]; now rewrite <- app_assoc.
Qed.

Lemma fields_or_columns_again fs schema :
  fields_or_columns (Some (fields_or_columns fs schema)) schema = fields_or_columns fs schema.
Proof.
  unfold fields_or_columns at 1.
  destruct (fields_or_columns fs schema) as [|f r] eqn:H; [|reflexivity].
  destruct fs as [[|f r]|]; cbn [fields_or_columns] in H; try discriminate; now rewrite H.
Qed.

Lemma no_primary_key_predicate_find schema ws :
  no_primary_key_predicate schema ws ->
  find (fun w => is_primary_key schema (column w)) ws = None /\
  single_primary_key_predicate schema ws = false.
Proof.
  intros H. split.
  - induction H as [|w ws Hw _ IH]; [reflexivity|]. cbn [find]. now rewrite Hw.
  - destruct H as [|w ws Hw H]; [reflexivity|]. cbn. destruct ws; [exact Hw | reflexivity].
Qed.

(** X16.  [findOne] with no predicate on the primary key: after the count
    one list request is sent, for one record, and [findOne] returns the
    first record of the answer, flattened and with its values as they
    came, or [undefined], without failing, when the answer has none. *)
Theorem findOne_without_primary_key fuel schema ws fs t total t1 filter r recs :
  no_primary_key_predicate schema ws ->
  findTotalRecords env fuel schema ws t = (Ok total, t1) ->
  fst (whereToFilter ws schema) = Ok filter ->
  let rq := listRecords_request (table schema)
              {| pageSize := 1; fields := fields_or_columns fs schema;
                 filterByFormula := filter; sort := Some []; maxRecords := Some 1;
                 offset := None |} in
  axios env t1 rq = Replied r ->
  res_records r = Some recs ->
  findOne env (S fuel) {| fo_schema := schema; fo_where := ws; fo_fields := fs |} t
    = (Ok (match recs with
           | rc :: _ => Some (flat_record (rec_id rc) (rec_fields rc))
           | [] => None
           end), (t1 ++ [rq])%list).
Proof.
  intros Hno Htotal Hf rq Hr Hrecs.
  destruct (no_primary_key_predicate_find _ _ Hno) as [Hfind Hnot].
  unfold findOne, findOne_with. cbn [fo_schema fo_where fo_fields].
  rewrite Hfind. cbn [truthy negb].
  set (options := {| opt_schema := schema; opt_where := ws;
                     opt_fields := Some (fields_or_columns fs schema);
                     opt_limit := Some 1; opt_offset := Some 0; opt_sort := None |}).
  assert (Hreal : real_fetch env options filter None = rq).
  { unfold real_fetch, rq, options. cbn [opt_schema opt_fields opt_limit opt_sort].
    rewrite fields_or_columns_again. reflexivity. }
  pose proof (findMany_first_page_run fuel options t total t1 filter
                Hnot eq_refl Htotal Hf) as Hrun.
  rewrite Hreal, Hr, Hrecs in Hrun.
  unfold rethrowing, bind. rewrite Hrun. unfold ret. cbn [fm_data].
  destruct recs; reflexivity.
Qed.

(** Every list request of the class asks for at most 100 records. *)
Lemma page_capped_findTotalRecords_loop tbl filter : forall fuel cursor total,
  sends_only page_capped (findTotalRecords_loop env fuel tbl filter cursor total).
Proof.
  induction fuel as [|fuel IH]; intros cursor total; cbn [findTotalRecords_loop].
  - apply sends_only_diverge.
  - apply sends_only_bind; [apply sends_only_createRequest; cbn; lia|].
    intros [r|]; [|apply sends_only_throw].
    destruct (res_records r) as [[|rc recs]|]; try apply sends_only_ret.
    destruct (_ <? 100); [apply sends_only_ret | apply IH].
Qed.

Lemma page_capped_findTotalRecords fuel schema ws :
  sends_only page_capped (findTotalRecords env fuel schema ws).
Proof.
  unfold findTotalRecords. apply sends_only_rethrowing, sends_only_bind.
  - apply sends_only_lift.
  - intros filter. apply page_capped_findTotalRecords_loop.
Qed.

Lemma page_capped_findMany_skip tbl fs filter srt target : forall fuel temp cur,
  sends_only page_capped (findMany_skip env fuel tbl fs filter srt target temp cur).
Proof.
  induction fuel as [|fuel IH]; intros temp cur; cbn [findMany_skip];
    destruct (temp <? target); try apply sends_only_ret; try apply sends_only_diverge.
  apply sends_only_bind; [apply sends_only_createRequest; cbn; lia|].
  intros [r|]; [apply IH | apply sends_only_throw].
Qed.

Lemma page_capped_findMany_page fuel options total :
  sends_only page_capped (findMany_page env fuel options total).
Proof.
  unfold findMany_page. apply sends_only_bind; [apply sends_only_lift|]. intros filter.
  apply sends_only_bind.
  - destruct (opt_offset options) as [off|]; [|apply sends_only_ret].
    destruct (off =? 0); [apply sends_only_ret|].
    destruct (Z.ltb_spec 100 off).
    + apply sends_only_bind; [apply page_capped_findMany_skip | intros; apply sends_only_ret].
    + apply sends_only_bind; [apply sends_only_createRequest; cbn; lia|].
      intros [r|]; [apply sends_only_ret | apply sends_only_throw].
  - intros cursor. apply sends_only_bind.
    + apply sends_only_createRequest. cbn.
      destruct (Z.ltb_spec 100 (effective_limit env (opt_limit options))); lia.
    + intros [r|]; [destruct (res_records r)|];
        try apply sends_only_ret; apply sends_only_throw.
Qed.

Lemma page_capped_findOne_with findMany_ options :
  (forall o, sends_only page_capped (findMany_ o)) ->
  sends_only page_capped (findOne_with env findMany_ options).
Proof.
  intros Hmany. unfold findOne_with. apply sends_only_rethrowing.
  destruct (negb _).
  - apply sends_only_bind; [apply Hmany | intros; apply sends_only_ret].
  - apply sends_only_bind; [apply sends_only_createRequest; exact I|].
    intros [r|]; [|apply sends_only_throw].
    destruct (negb _); [apply sends_only_throw|].
    apply sends_only_bind; [apply sends_only_lift | intros; apply sends_only_ret].
Qed.

Lemma page_capped_findMany : forall fuel options,
  sends_only page_capped (findMany env fuel options).
Proof.
  induction fuel as [|fuel IH]; intros options; cbn [findMany]; [apply sends_only_throw|].
  destruct (single_primary_key_predicate _ _).
  - apply sends_only_bind; [now apply page_capped_findOne_with | intros; apply sends_only_ret].
  - apply sends_only_bind; [apply page_capped_findTotalRecords|].
    intros total. apply sends_only_rethrowing, page_capped_findMany_page.
Qed.

(** X17.  Whatever the limit and the offset, no list request that
    [findMany], [findOne] or [findTotalRecords] sends asks for more than 100
    records. *)
Theorem list_requests_capped fuel :
  (forall options, sends_only page_capped (findMany env fuel options)) /\
  (forall options, sends_only page_capped (findOne env fuel options)) /\
  (forall schema ws, sends_only page_capped (findTotalRecords env fuel schema ws)).
Proof.
  split; [apply page_capped_findMany|]. split.
  - intros options. apply page_capped_findOne_with, page_capped_findMany.
  - apply page_capped_findTotalRecords.
Qed.

(** X18.  The read methods only read: no request that [checkConnection],
    [listTables], [getSchema], [findTotalRecords], [findMany] or [findOne]
    sends is a write. *)
Theorem reads_never_write fuel :
  sends_only is_read (checkConnection env) /\
  sends_only is_read (listTables env) /\
  (forall target, sends_only is_read (getSchema env target)) /\
  (forall schema ws, sends_only is_read (findTotalRecords env fuel schema ws)) /\
  (forall options, sends_only is_read (findMany env fuel options)) /\
  (forall options, sends_only is_read (findOne env fuel options)).
Proof.
  assert (Hget : forall e, is_read {| endpoint := e; method := GET; data := NoData |})
    by reflexivity.
  assert (Hlist : forall tbl b, is_read (listRecords_request tbl b)) by reflexivity.
  repeat split.
  - intros t. rewrite checkConnection_run. exists [bases_request].
    split; [reflexivity | repeat constructor].
  - intros t. rewrite listTables_run. exists [tables_request].
    split; [reflexivity | repeat constructor].
  - intros target. now apply sends_only_getSchema.
  - intros schema ws. now apply sends_only_findTotalRecords.
  - intros options. now apply sends_only_findMany.
  - intros options. now apply sends_only_findOne.
Qed.

End ListPath.

Lemma findMany_without_offset_witness :
  findMany (base_env (shop 3)) 2 all_orders [] =
    (Ok {| fm_limit := Some 20; fm_offset := None; fm_total := 3;
           fm_pagination_total := 3;
           fm_page := page_tokens (base_env (shop 3)) (Some 20) None 3;
           fm_data := flat_records (map order (seq 0 3)) |},
     [ first_count_request "Orders" EmptyString;
       real_fetch (base_env (shop 3)) all_orders EmptyString None ]).
Proof.
  exact (proj1 (findMany_without_offset (base_env (shop 3)) 1 all_orders []
                  3 [first_count_request "Orders" EmptyString] EmptyString
                  three_orders_page (map order (seq 0 3))
                  eq_refl eq_refl eq_refl eq_refl eq_refl eq_refl)).
Defined.

Lemma findMany_offset_up_to_100_witness :
  snd (findMany (base_env (shop 60)) 2 (list_orders 50) []) =
    [ first_count_request "Orders" EmptyString;
      position_request (list_orders 50) EmptyString 50;
      real_fetch (base_env (shop 60)) (list_orders 50) EmptyString (Some (cursor_at 50)) ].
Proof.
  assert (Hnz : 50 <> 0) by lia.
  assert (Hle : 50 <= 100) by lia.
  exact (findMany_offset_up_to_100 (base_env (shop 60)) 1 (list_orders 50) 50 []
           60 [first_count_request "Orders" EmptyString] EmptyString first_50_of_60
           eq_refl eq_refl Hnz Hle eq_refl eq_refl eq_refl).
Defined.

Lemma findOne_without_primary_key_witness :
  findOne (base_env (shop 3)) 2
    {| fo_schema := orders_schema; fo_where := orders_named "order 0"; fo_fields := None |} []
  = (Ok (Some (flat_record (rec_id (order 0)) (rec_fields (order 0)))),
     [ first_count_request "Orders" ("{Name}=" ++ dquote ++ "order 0" ++ dquote);
       listRecords_request "Orders"
         {| pageSize := 1; fields := ["Name"; "CustomerId"; "Paid"; "When"];
            filterByFormula := "{Name}=" ++ dquote ++ "order 0" ++ dquote;
            sort := Some []; maxRecords := Some 1; offset := None |} ]).
Proof.
  assert (Hno : no_primary_key_predicate orders_schema (orders_named "order 0"))
    by (repeat constructor).
  exact (findOne_without_primary_key (base_env (shop 3)) 1 orders_schema
           (orders_named "order 0") None [] 3
           [first_count_request "Orders" ("{Name}=" ++ dquote ++ "order 0" ++ dquote)]
           ("{Name}=" ++ dquote ++ "order 0" ++ dquote)
           first_order_page [order 0]
           Hno eq_refl eq_refl eq_refl eq_refl).
Defined.

(** ** Mutations *)

Lemma wrapped_link_trans schema x y z :
  wrapped_link schema x y -> wrapped_link schema y z -> wrapped_link schema x z.
Proof.
  intros [->|(-> & Ha & Ht & Hc)] Hyz; [exact Hyz|].
  destruct Hyz as [->|(_ & Harr & _)].
  - right. repeat split; assumption.
  - discriminate Harr.
Qed.

Lemma Forall2_wrapped_link_trans schema : forall a b c,
  Forall2 (wrapped_link schema) a b -> Forall2 (wrapped_link schema) b c ->
  Forall2 (wrapped_link schema) a c.
Proof.
  intros a b c Hab. revert c. induction Hab as [|x y a b Hxy _ IH]; intros c Hbc.
  - inversion Hbc. constructor.
  - inversion Hbc as [|? z ? c' Hyz Hbc']; subst. constructor.
    + eapply wrapped_link_trans; eauto.
    + now apply IH.
Qed.

Lemma Forall2_wrapped_link_refl schema d : Forall2 (wrapped_link schema) d d.
Proof. induction d; constructor; [now left | assumption]. Qed.

Lemma obj_set_wrapped schema col d :
  In col (columns schema) ->
  foreign_key col = true ->
  truthy (obj_get (field col) d) = true ->
  isArray (obj_get (field col) d) = false ->
  Forall2 (wrapped_link schema) d
    (obj_set (field col) (VArr [obj_get (field col) d]) d).
Proof.
  intros Hin Hfk. induction d as [|[k v] d IH]; cbn [obj_get obj_set]; [discriminate|].
  destruct (String.eqb_spec k (field col)) as [->|Hne]; intros Ht Ha.
  - constructor; [|apply Forall2_wrapped_link_refl].
    right. cbn [fst snd]. repeat split; try assumption. exists col. repeat split; assumption.
  - constructor; [now left | now apply IH].
Qed.

Lemma obj_get_wrapped schema k : forall d d',
  Forall2 (wrapped_link schema) d d' ->
  obj_get k d' = obj_get k d \/
  (obj_get k d' = VArr [obj_get k d] /\ truthy (obj_get k d) = true).
Proof.
  induction 1 as [|[k0 v0] [k1 v1] d d' HR _ IH]; [now left|].
  cbn [obj_get].
  destruct HR as [[= -> ->]|([= -> ->] & _ & Ht & _)]; cbn [fst snd] in *.
  - destruct (String.eqb k0 k); [now left | exact IH].
  - destruct (String.eqb k0 k); [right; now split | exact IH].
Qed.

Lemma obj_get_delete k : forall d,
  NoDup (map fst d) -> obj_get k (obj_delete k d) = VUndefined.
Proof.
  induction d as [|[k0 v0] d IH]; cbn [obj_delete obj_get map fst]; [reflexivity|].
  intros Hnd. inversion Hnd as [|? ? Hnot Hnd']; subst.
  destruct (String.eqb_spec k0 k) as [->|Hne].
  - now apply obj_get_absent.
  - cbn [obj_get]. destruct (String.eqb_spec k0 k); [contradiction | now apply IH].
Qed.

Section Mutating.

Variable env : Env.

(** The relation check leaves the data as it was but for scalars of
    foreign-key columns, which it wraps. *)
Lemma check_relations_data fuel schema : forall cols d t d' t',
  incl cols (columns schema) ->
  check_relations env fuel schema cols d t = (Ok d', t') ->
  Forall2 (wrapped_link schema) d d'.
Proof.
  induction cols as [|col cols IH]; intros d t d' t' Hincl; cbn [check_relations].
  - intros [= <- <-]. apply Forall2_wrapped_link_refl.
  - assert (Hcols : incl cols (columns schema)) by (intros x Hx; apply Hincl; now right).
    destruct (foreign_key col) eqn:Hfk; cbn [andb]; [|now apply IH].
    destruct (truthy (obj_get (field col) d)) eqn:Ht; [|now apply IH].
    unfold bind.
    destruct (check_linked_ids env fuel _ _ t) as [[u|e|] t0]; try discriminate.
    intros H. apply IH in H; [|assumption].
    eapply Forall2_wrapped_link_trans; [|exact H].
    destruct (isArray (obj_get (field col) d)) eqn:Ha; [apply Forall2_wrapped_link_refl|].
    apply obj_set_wrapped; try assumption. apply Hincl. now left.
Qed.

Lemma check_relations_no_links fuel schema : forall cols d t,
  Forall (fun col => (foreign_key col && truthy (obj_get (field col) d))%bool = false) cols ->
  check_relations env fuel schema cols d t = (Ok d, t).
Proof.
  induction cols as [|col cols IH]; intros d t H; cbn [check_relations]; [reflexivity|].
  inversion H as [|? ? Hc Hrest]; subst. rewrite Hc. now apply IH.
Qed.

Lemma createOne_run fuel options t :
  createOne env fuel options t =
    match check_relations env fuel (co_schema options) (columns (co_schema options))
            (co_data options) t with
    | (Ok d, t1) =>
        (match axios env t1 (create_request (co_schema options) d) with
         | Replied r =>
             match res_records r with
             | Some (rc :: _) => Ok (flat_record (rec_id rc) (rec_fields rc))
             | _ => Throw (new_Error_of (Error "Record not created"))
             end
         | HttpError => Throw (new_Error_of (TypeError_reading "records"))
         | NetworkError => Throw (new_Error_of (TypeError_reading "data"))
         end, (t1 ++ [create_request (co_schema options) d])%list)
    | (Throw e, t1) => (Throw (new_Error_of e), t1)
    | (Diverge, t1) => (Diverge, t1)
    end.
Proof.
  unfold createOne, rethrowing, bind.
  destruct (check_relations env fuel _ _ _ t) as [[d|e|] t1]; try reflexivity.
  unfold createRequest. fold (create_request (co_schema options) d).
  destruct (axios env t1 _) as [r| |]; try reflexivity.
  destruct (res_records r) as [[|rc recs]|]; reflexivity.
Qed.

(** X19.  [createOne] with data that has no truthy value under a
    foreign-key column sends one request, the create with the data as they
    are, and returns the first record echoed, flattened; it fails with
    [Record not created] when the answer echoes no record, and with a
    TypeError when the answer is an HTTP error. *)
Theorem createOne_without_links fuel options t :
  no_links (co_schema options) (co_data options) ->
  createOne env fuel options t =
    (match axios env t (create_request (co_schema options) (co_data options)) with
     | Replied r =>
         match res_records r with
         | Some (rc :: _) => Ok (flat_record (rec_id rc) (rec_fields rc))
         | _ => Throw (new_Error_of (Error "Record not created"))
         end
     | HttpError => Throw (new_Error_of (TypeError_reading "records"))
     | NetworkError => Throw (new_Error_of (TypeError_reading "data"))
     end, (t ++ [create_request (co_schema options) (co_data options)])%list).
Proof.
  intros H. rewrite createOne_run. unfold no_links in H.
  now rewrite (check_relations_no_links fuel _ _ _ t H).
Qed.

(** X20.  [createOne] sends at most one write, as its last request, and
    it is the create on the table of the schema; its fields are the data
    given, each value as it was or, a truthy scalar under a foreign-key
    column, as a one-element array.  When [createOne] returns, that write
    was sent. *)
Theorem createOne_one_write fuel options t :
  exists reads w,
    snd (createOne env fuel options t) = (t ++ reads ++ w)%list /\
    Forall is_read reads /\
    (w = [] \/
     exists d, w = [create_request (co_schema options) d] /\
               Forall2 (wrapped_link (co_schema options)) (co_data options) d) /\
    (forall res, fst (createOne env fuel options t) = Ok res -> w <> []).
Proof.
  rewrite createOne_run.
  destruct (sends_only_check_relations env is_read (fun _ => eq_refl) (fun _ _ => eq_refl)
              fuel (co_schema options) (columns (co_schema options)) (co_data options) t)
    as (reads & Hreads & Hall).
  destruct (check_relations env fuel _ _ _ t) as [[d|e|] t1] eqn:Hc; cbn [snd] in Hreads; subst t1.
  - exists reads, [create_request (co_schema options) d]. cbn [fst snd].
    rewrite app_assoc. repeat split; try assumption; [|discriminate].
    right. exists d. split; [reflexivity|].
    eapply check_relations_data; [apply incl_refl | exact Hc].
  - exists reads, []. cbn [fst snd]. rewrite app_nil_r.
    repeat split; try assumption; [now left | discriminate].
  - exists reads, []. cbn [fst snd]. rewrite app_nil_r.
    repeat split; try assumption; [now left | discriminate].
Qed.

Lemma updateOne_run fuel options t :
  let schema := uo_schema options in
  let d0 := without_primary_key schema (uo_data options) in
  updateOne env fuel options t =
    match check_relations env fuel schema (columns schema) d0 t with
    | (Ok d, t1) =>
        (match axios env t1 (update_request schema (uo_id options) d) with
         | Replied r =>
             if truthy (res_id r) then Ok (flat_record (res_id r) (res_fields r))
             else Throw (new_Error_of (Error "Record not updated"))
         | HttpError => Throw (new_Error_of (TypeError_reading "id"))
         | NetworkError => Throw (new_Error_of (TypeError_reading "data"))
         end, (t1 ++ [update_request schema (uo_id options) d])%list)
    | (Throw e, t1) => (Throw (new_Error_of e), t1)
    | (Diverge, t1) => (Diverge, t1)
    end.
Proof.
  cbv zeta. unfold updateOne, rethrowing, bind.
  fold (without_primary_key (uo_schema options) (uo_data options)).
  destruct (check_relations env fuel _ _ _ t) as [[d|e|] t1]; try reflexivity.
  unfold createRequest. fold (update_request (uo_schema options) (uo_id options) d).
  destruct (axios env t1 _) as [r| |]; try reflexivity.
  destruct (truthy (res_id r)); reflexivity.
Qed.

Lemma without_primary_key_falsy schema d :
  NoDup (map fst d) ->
  truthy (obj_get (primary_key_name schema) (without_primary_key schema d)) = false.
Proof.
  intros Hnd. unfold without_primary_key.
  destruct (truthy (obj_get _ d)) eqn:Ht; [|exact Ht].
  now rewrite obj_get_delete.
Qed.

(** X21.  [updateOne] never writes the primary key: it sends at most one
    write, as its last request, the update of the record, and the fields
    of that update have no truthy value under the primary key, whatever
    the data given. *)
Theorem updateOne_never_writes_primary_key fuel options t :
  NoDup (map fst (uo_data options)) ->
  exists reads w,
    snd (updateOne env fuel options t) = (t ++ reads ++ w)%list /\
    Forall is_read reads /\
    (w = [] \/
     exists d, w = [update_request (uo_schema options) (uo_id options) d] /\
               truthy (obj_get (primary_key_name (uo_schema options)) d) = false).
Proof.
  intros Hnd. pose proof (updateOne_run fuel options t) as Hrun. cbv zeta in Hrun.
  rewrite Hrun. clear Hrun.
  set (schema := uo_schema options).
  set (d0 := without_primary_key schema (uo_data options)).
  destruct (sends_only_check_relations env is_read (fun _ => eq_refl) (fun _ _ => eq_refl)
              fuel schema (columns schema) d0 t) as (reads & Hreads & Hall).
  destruct (check_relations env fuel schema (columns schema) d0 t) as [[d|e|] t1] eqn:Hc;
    cbn [snd] in Hreads; subst t1.
  - exists reads, [update_request schema (uo_id options) d]. cbn [snd].
    rewrite app_assoc. repeat split; try assumption.
    right. exists d. split; [reflexivity|].
    apply check_relations_data in Hc; [|apply incl_refl].
    pose proof (without_primary_key_falsy schema (uo_data options) Hnd) as Hfalsy.
    fold d0 in Hfalsy.
    destruct (obj_get_wrapped schema (primary_key_name schema) d0 d Hc) as [->|[_ Ht]].
    + exact Hfalsy.
    + congruence.
  - exists reads, []. cbn [snd]. rewrite app_nil_r. repeat split; try assumption. now left.
  - exists reads, []. cbn [snd]. rewrite app_nil_r. repeat split; try assumption. now left.
Qed.

(** X22.  [updateOne] with data that, the primary key apart, has no
    truthy value under a foreign-key column sends one request, the update
    with the data without the primary key, and returns the record echoed,
    flattened; it fails with [Record not updated] when the answer has no
    id, and with a TypeError when the answer is an HTTP error. *)
Theorem updateOne_without_links fuel options t :
  let schema := uo_schema options in
  let d0 := without_primary_key schema (uo_data options) in
  no_links schema d0 ->
  updateOne env fuel options t =
    (match axios env t (update_request schema (uo_id options) d0) with
     | Replied r =>
         if truthy (res_id r) then Ok (flat_record (res_id r) (res_fields r))
         else Throw (new_Error_of (Error "Record not updated"))
     | HttpError => Throw (new_Error_of (TypeError_reading "id"))
     | NetworkError => Throw (new_Error_of (TypeError_reading "data"))
     end, (t ++ [update_request schema (uo_id options) d0])%list).
Proof.
  intros schema d0 H. pose proof (updateOne_run fuel options t) as Hrun. cbv zeta in Hrun.
  rewrite Hrun. fold schema d0. unfold no_links in H.
  now rewrite (check_relations_no_links fuel schema (columns schema) d0 t H).
Qed.

(** X23.  [deleteOne] without a soft-delete column, or with the empty
    string for one, sends one request, the DELETE of the record; it
    returns [{deleted: 1}] when the answer has an id, returns nothing when
    the answer has none, and fails with a TypeError when the answer is an
    HTTP error. *)
Theorem deleteOne_hard_delete fuel options t :
  softDelete_column options = None ->
  deleteOne env fuel options t =
    (match axios env t (delete_request (do_schema options) (do_id options)) with
     | Replied r => Ok (if truthy (res_id r) then Some {| deleted := 1 |} else None)
     | HttpError => Throw (new_Error_of (TypeError_reading "id"))
     | NetworkError => Throw (new_Error_of (TypeError_reading "data"))
     end, (t ++ [delete_request (do_schema options) (do_id options)])%list).
Proof.
  intros H. unfold deleteOne, rethrowing, bind. rewrite H.
  unfold createRequest. fold (delete_request (do_schema options) (do_id options)).
  destruct (axios env t _) as [r| |]; try reflexivity.
  unfold ret. cbn beta iota.
  destruct (truthy (res_id r)); reflexivity.
Qed.

End Mutating.

Lemma createOne_without_links_witness :
  createOne (base_env (shop 3)) 0 plain_order []
    = (Ok [ ("id", VStr "recNew"); ("Name", VStr "x") ],
       [create_request orders_schema [ ("Name", VStr "x") ]]).
Proof.
  assert (H : no_links (co_schema plain_order) (co_data plain_order))
    by (repeat constructor).
  exact (createOne_without_links (base_env (shop 3)) 0 plain_order [] H).
Defined.

Lemma updateOne_never_writes_primary_key_witness :
  exists reads w,
    snd (updateOne (base_env (shop 3)) 0 rename_order []) = ([] ++ reads ++ w)%list /\
    Forall is_read reads /\
    (w = [] \/
     exists d, w = [update_request orders_schema "rec1" d] /\
               truthy (obj_get "id" d) = false).
Proof.
  assert (H : NoDup (map fst (uo_data rename_order)))
    by (repeat constructor; simpl; intuition discriminate).
  exact (updateOne_never_writes_primary_key (base_env (shop 3)) 0 rename_order [] H).
Defined.

Lemma updateOne_without_links_witness :
  updateOne (base_env (shop 3)) 0 rename_order []
    = (Ok [ ("id", VStr "rec1"); ("Name", VStr "y"); ("When", VStr "2024-01-15") ],
       [update_request orders_schema "rec1" [ ("Name", VStr "y") ]]).
Proof.
  assert (H : no_links (uo_schema rename_order)
                (without_primary_key (uo_schema rename_order) (uo_data rename_order)))
    by (repeat constructor).
  exact (updateOne_without_links (base_env (shop 3)) 0 rename_order [] H).
Defined.

Lemma deleteOne_hard_delete_witness :
  deleteOne (base_env (shop 3)) 0
    {| do_id := "rec1"; do_schema := orders_schema; softDelete := Some EmptyString |} []
  = (Ok (Some {| deleted := 1 |}), [delete_request orders_schema "rec1"]).
Proof.
  exact (deleteOne_hard_delete (base_env (shop 3)) 0
           {| do_id := "rec1"; do_schema := orders_schema; softDelete := Some EmptyString |}
           [] eq_refl).
Defined.

(** ** The filter translator, further *)

(** X24.  A comparison of a BOOLEAN column with [false] is rendered as a
    comparison with the empty string: the text [false] does not come from
    the value. *)
Theorem whereToFilter_unchecked_box schema w col sym :
  find_column schema (column w) = Some col ->
  type col = DataSourceColumnType.BOOLEAN ->
  where_value w = VBool false ->
  spec_symbol (operator w) = Some sym ->
  fst (whereToFilter [w] schema)
    = Ok ("{" ++ column w ++ "}" ++ sym ++ dquote ++ dquote).
Proof.
  intros Hc Hty Hv Hsym.
  assert (Hk : Forall (known_column schema) [w]).
  { constructor; [|constructor]. unfold known_column. rewrite Hc. discriminate. }
  rewrite (whereToFilter_known schema [w] Hk). cbn [fst map spec_filter].
  unfold spec_rewrite. rewrite Hc, Hty, Hv.
  unfold spec_expression. cbn [set_where_value operator column where_value to_string].
  rewrite Hsym. reflexivity.
Qed.

Lemma whereToFilter_unchecked_box_witness :
  fst (whereToFilter unpaid orders_schema) = Ok ("{Paid}=" ++ dquote ++ dquote).
Proof.
  exact (whereToFilter_unchecked_box orders_schema
           (where_ "Paid" WhereOperator.equals (VBool false))
           (column_of_field {| fld_name := "Paid"; fld_type := AirtableColumnType.CHECKBOX;
                               fld_options := None |})
           "=" eq_refl eq_refl eq_refl eq_refl).
Defined.

Lemma whereToFilter_loop_unknown schema w rest : forall before filter,
  Forall (known_column schema) before ->
  find_column schema (column w) = None ->
  whereToFilter_loop schema (before ++ w :: rest) filter
    = (Throw (TypeError_reading "type"),
       (map (spec_rewrite schema) before ++ w :: rest)%list).
Proof.
  induction before as [|b before IH]; intros filter Hk Hw.
  - cbn [app map whereToFilter_loop]. now rewrite Hw.
  - inversion Hk as [|? ? Hb Hrest]; subst. cbn [app map whereToFilter_loop].
    unfold known_column in Hb.
    destruct (find_column schema (column b)) as [col|] eqn:Hc; [|congruence].
    rewrite (spec_rewrite_found _ _ _ Hc). now rewrite IH.
Qed.

(** X25.  When a predicate is on a column the schema does not have,
    [whereToFilter] throws a TypeError; the predicates before it have had
    the checkbox rewrite by then, and it and those after it are as they
    were. *)
Theorem whereToFilter_unknown_column schema before w rest :
  Forall (known_column schema) before ->
  find_column schema (column w) = None ->
  whereToFilter (before ++ w :: rest) schema
    = (Throw (TypeError_reading "type"),
       (map (spec_rewrite schema) before ++ w :: rest)%list).
Proof.
  intros Hk Hw. unfold whereToFilter.
  rewrite (whereToFilter_loop_unknown schema w rest before EmptyString Hk Hw).
  destruct before; reflexivity.
Qed.

Lemma whereToFilter_unknown_column_witness :
  whereToFilter unpaid_with_total orders_schema
    = (Throw (TypeError_reading "type"),
       [ where_ "Paid" WhereOperator.equals (VStr EmptyString);
         where_ "Total" WhereOperator.gt (VNum 3);
         where_ "Paid" WhereOperator.not_equals (VBool false) ]).
Proof.
  assert (Hk : Forall (known_column orders_schema)
                 [where_ "Paid" WhereOperator.equals (VBool false)])
    by (repeat constructor; vm_compute; discriminate).
  exact (whereToFilter_unknown_column orders_schema
           [where_ "Paid" WhereOperator.equals (VBool false)]
           (where_ "Total" WhereOperator.gt (VNum 3))
           [where_ "Paid" WhereOperator.not_equals (VBool false)] Hk eq_refl).
Defined.

(** ** The relation check, further *)

Lemma link_requests_length tbl ids :
  List.length (link_requests tbl ids) = (2 * List.length ids)%nat.
Proof.
  induction ids as [|id ids IH]; [reflexivity|].
  cbn [link_requests flat_map app List.length]. fold (link_requests tbl ids).
  rewrite IH. lia.
Qed.

Section Checking.

Variable env : Env.

(** X26.  When the relation check accepts the ids of a column it has
    sent, for each id in order, the catalogue request and then the point
    fetch of that id in the linked table, and nothing else: two requests
    for each linked id. *)
Theorem check_linked_ids_requests fuel l : forall ids t t',
  check_linked_ids env fuel (Some l) ids t = (Ok tt, t') ->
  t' = (t ++ link_requests (rel_table l) ids)%list /\
  List.length (link_requests (rel_table l) ids) = (2 * List.length ids)%nat.
Proof.
  induction ids as [|id ids IH]; intros t t'; cbn [check_linked_ids].
  - intros [= <-]. split; [now rewrite app_nil_r | reflexivity].
  - unfold bind at 1. rewrite getSchema_run.
    destruct (axios env t tables_request) as [r| |]; try discriminate.
    destruct (res_tables r) as [tables|]; [|discriminate].
    destruct (getSchema_of tables (rel_table l)) as [s|e|] eqn:Hs; try discriminate.
    apply getSchema_of_result in Hs. destruct Hs as (tb & fwd & rev & _ & Htab & Hpk & _).
    unfold bind at 1.
    set (w := {| column := "id"; operator := WhereOperator.equals; where_value := id |}).
    assert (Hid : is_primary_key s (column w) = true)
      by (unfold is_primary_key; now rewrite Hpk).
    destruct (truthy id) eqn:Hv.
    + unfold findOne.
      rewrite (findOne_point_fetch env (findMany env fuel) s w None _ Hid Hv).
      cbn [where_value w]. unfold point_fetch. rewrite Htab.
      destruct (axios env _ _) as [r1| |]; try discriminate.
      destruct (truthy (res_id r1)); [|discriminate].
      destruct (formatOutput env _ _); try discriminate.
      intros H. apply IH in H. destruct H as [-> _].
      split; [|apply link_requests_length].
      cbn [link_requests flat_map app]. now rewrite <- !app_assoc.
    + rewrite (findOne_falsy_id env s w fuel None _ Hid Hv). discriminate.
Qed.

End Checking.

Lemma check_linked_ids_requests_witness :
  snd (check_linked_ids (base_env (shop 0)) 0
         (Some {| rel_table := "Customers"; rel_column := "id";
                  org_table := "Orders"; org_column := "CustomerId" |})
         [VStr "recA"; VStr "recA"] [])
    = ([] ++ link_requests "Customers" [VStr "recA"; VStr "recA"])%list /\
  List.length (link_requests "Customers" [VStr "recA"; VStr "recA"]) = (2 * 2)%nat.
Proof.
  exact (check_linked_ids_requests (base_env (shop 0)) 0
           {| rel_table := "Customers"; rel_column := "id";
              org_table := "Orders"; org_column := "CustomerId" |}
           [VStr "recA"; VStr "recA"] []
           (link_requests "Customers" [VStr "recA"; VStr "recA"]) eq_refl).
Defined.
